(** * Stylus Scribble Studio: the canvas board, embedded and verified

    A shallow embedding of [CanvasBoard] (the React component that owns the
    drawing state): the SVG path builder, the pointer handlers that record
    ink samples, stroke and lasso finalisation, the point-in-polygon test,
    zoom handlers, layer handlers and undo.

    Conventions.
    - A JavaScript [number] is an exact rational ([Q]).  The code only adds,
      subtracts, multiplies, divides and compares finite numbers, and every
      statement below is about comparisons and list structure; NaN and the
      infinities are outside the model.
    - React state and refs are fields of one record, [Board]; a handler is a
      function from boards to boards.  A closure over a state variable reads
      the field of the board the handler is applied to.
    - Painting (the overlay 2D context, [renderAll], animation frames,
      pointer capture, toasts) has no effect on the modelled state and is
      left out.
    - What the two bundled libraries and the JavaScript runtime compute
      ([getStroke], [getCenterPoint], [toFixed]) is the interface
      [Externals]. *)

From Stdlib Require Import List Bool Arith ZArith QArith Qminmax Qround Qabs.
From Stdlib Require Import String Ascii DecimalString DecimalN Lia Lqa Field.
From Stdlib Require Import Qfield Permutation.
Import ListNotations.

Local Close Scope Q_scope.
Local Open Scope list_scope.
Local Open Scope string_scope.

(** ** JavaScript values *)

Module JS.

Definition number : Type := Q.

(** [a > b] and [a < b] on numbers. *)
Definition gt (a b : number) : bool := negb (Qle_bool a b).
Definition lt (a b : number) : bool := negb (Qle_bool b a).

(** A number is falsy exactly when it is zero. *)
Definition truthy (a : number) : bool := negb (Qeq_bool a 0%Q).

(** [a || b] on numbers. *)
Definition or_else (a b : number) : number := if truthy a then a else b.

(** [Math.max] and [Math.min] of two numbers. *)
Definition Math_max (a b : number) : number := Qmax a b.
Definition Math_min (a b : number) : number := Qmin a b.

(** [arr.reduce(f, init)], the callback receiving the accumulator, the
    element, its index and the array. *)
Fixpoint reduce_from {A B : Type} (f : B -> A -> nat -> list A -> B)
    (arr : list A) (i : nat) (rest : list A) (acc : B) : B :=
  match rest with
  | [] => acc
  | a :: rest' => reduce_from f arr (S i) rest' (f acc a i arr)
  end.

Definition reduce {A B : Type} (f : B -> A -> nat -> list A -> B)
    (arr : list A) (init : B) : B :=
  reduce_from f arr 0 arr init.

(** The start index of [splice], made relative to the array: a negative
    index counts from the end, and the result is clamped to [0, len]. *)
Definition relative_start (start : Z) (len : nat) : nat :=
  if (start <? 0)%Z
  then Z.to_nat (Z.max (Z.of_nat len + start) 0)
  else Nat.min (Z.to_nat start) len.

(** [arr.splice(start, 1)]: the removed elements and the array left. *)
Definition splice_remove1 {A : Type} (start : Z) (arr : list A)
  : list A * list A :=
  let k := relative_start start (List.length arr) in
  (firstn 1 (skipn k arr), (firstn k arr ++ skipn (S k) arr)%list).

(** [arr.splice(start, 0, item)]: the array with [item] inserted. *)
Definition splice_insert {A : Type} (start : Z) (item : A) (arr : list A)
  : list A :=
  let k := relative_start start (List.length arr) in
  (firstn k arr ++ item :: skipn k arr)%list.

(** Template-literal rendering of a non-negative integer. *)
Definition string_of_N (n : N) : string :=
  NilEmpty.string_of_uint (N.to_uint n).

End JS.

Import JS.

(** ** The fabric canvas, as far as the board uses it *)

Module Fabric.

Record Point : Type := mkPoint { x : number; y : number }.

(** What the board constructs: [new Rect], [new Circle], [new Path]. *)
Inductive Shape : Type :=
| Rect (left top width height rx ry : number)
| Circle (left top radius : number)
| Path (pathData : string) (selectable objectCaching : bool).

(** An object on the canvas.  [oid] is the identity of the JavaScript
    object: two objects built by two [new] expressions differ in it even
    when all their properties agree. *)
Record FabricObject : Type := mkObject {
  oid : nat;
  fill : string;
  shape : Shape
}.

(** The active object: a single object, or an [ActiveSelection] built
    from several. *)
Inductive Active : Type :=
| Single (o : FabricObject)
| ActiveSelection (objs : list FabricObject).

Record Canvas : Type := mkCanvas {
  getObjects : list FabricObject;
  getActiveObject : option Active
}.

Definition empty : Canvas := mkCanvas [] None.

(** [canvas.add(o)] appends to the object array. *)
Definition add (o : FabricObject) (c : Canvas) : Canvas :=
  mkCanvas (getObjects c ++ [o])%list (getActiveObject c).

(** [indexOf]-then-[splice]: the first entry that is the object [o]
    itself is dropped. *)
Fixpoint remove_first (o : nat) (objs : list FabricObject)
  : list FabricObject :=
  match objs with
  | [] => []
  | a :: rest => if Nat.eqb (oid a) o then rest
                 else a :: remove_first o rest
  end.

(** [canvas.remove(o)]. *)
Definition remove (o : FabricObject) (c : Canvas) : Canvas :=
  mkCanvas (remove_first (oid o) (getObjects c)) (getActiveObject c).

Definition discardActiveObject (c : Canvas) : Canvas :=
  mkCanvas (getObjects c) None.

Definition setActiveObject (a : Active) (c : Canvas) : Canvas :=
  mkCanvas (getObjects c) (Some a).

(** [canvas.clear()]. *)
Definition clear (c : Canvas) : Canvas := empty.

End Fabric.

Import Fabric.

(** ** External routines *)

(** The options object handed to [getStroke]. *)
Record StrokeOptions : Type := mkStrokeOptions {
  size : number;
  opt_smoothing : number;
  thinning : number;
  streamline : number;
  simulatePressure : bool
}.

(** An outline point [[x, y]] and an input point [[x, y, pressure]]. *)
Definition Vec2 : Type := (number * number)%type.
Definition Vec3 : Type := (number * number * number)%type.

Class Externals : Type := {
  (** [Number.prototype.toFixed]. *)
  toFixed : number -> nat -> string;
  (** [getStroke] of perfect-freehand, with the identity easing. *)
  getStroke : list Vec3 -> StrokeOptions -> list Vec2;
  (** [obj.getCenterPoint()] of fabric. *)
  getCenterPoint : FabricObject -> Point
}.

(** ** getSvgPathFromStroke *)

Section SvgPath.
Context {E : Externals}.

(** The callback handed to [reduce]. *)
Definition path_reducer (acc : string) (p0 : Vec2) (i : nat)
    (arr : list Vec2) : string :=
  let '(x0, y0) := p0 in
  let '(x1, y1) := nth ((i + 1) mod List.length arr) arr (0%Q, 0%Q) in
  let acc :=
    acc ++ ((if Nat.eqb i 0 then "M" else "L")
            ++ toFixed x0 2 ++ " " ++ toFixed y0 2 ++ " ") in
  if Nat.eqb i (List.length arr - 1)
  then acc ++ ("L" ++ toFixed x1 2 ++ " " ++ toFixed y1 2 ++ " Z")
  else acc.

Definition getSvgPathFromStroke (points : list Vec2) : string :=
  if Nat.eqb (List.length points) 0 then ""
  else reduce path_reducer points "".

End SvgPath.

(** A decimal [toFixed] on rationals, for running the definitions: the
    integer nearest to [|x| * 10^digits] (the larger one on a tie), printed
    with a decimal point before its last [digits] digits, and a minus
    sign when [x < 0]. *)
Module Decimal_toFixed.

Fixpoint zeros (n : nat) : string :=
  match n with O => "" | S n' => String "0" (zeros n') end.

Definition pad_left (width : nat) (s : string) : string :=
  zeros (width - String.length s) ++ s.

Definition toFixed (x : number) (digits : nat) : string :=
  let scaled := (Qabs x * inject_Z (10 ^ Z.of_nat digits) + (1 # 2))%Q in
  let n := Z.to_N (Qfloor scaled) in
  let ds := pad_left (S digits) (string_of_N n) in
  let k := String.length ds - digits in
  (if lt x 0%Q then "-" else "")
    ++ substring 0 k ds
    ++ (if Nat.eqb digits 0 then "" else "." ++ substring k digits ds).

End Decimal_toFixed.

(** ** The board *)

Inductive Tool : Type := select | draw | rectangle | circle | lasso.

Definition Tool_eqb (a b : Tool) : bool :=
  match a, b with
  | select, select | draw, draw | rectangle, rectangle
  | circle, circle | lasso, lasso => true
  | _, _ => false
  end.

(** A recorded pointer sample. *)
Record Pt : Type := mkPt {
  x : number;
  y : number;
  pressure : number;
  t : number
}.

(** The interface [Layer] of the layer panel.  [objects] is declared
    [any[]]; the board only ever stores the empty array in it. *)
Record Layer : Type := mkLayer {
  id : string;
  name : string;
  visible : bool;
  locked : bool;
  objects : list FabricObject
}.

(** What a handler reads from the browser: the pointer event and the
    bounding rectangle of the overlay canvas at that moment. *)
Module Ev.
Record PointerEvent : Type := mkPointerEvent {
  clientX : number;
  clientY : number;
  pressure : number;
  timeStamp : number
}.
Record DOMRect : Type := mkDOMRect { left : number; top : number }.
End Ev.

(** The state and refs of the component.  [fabricCanvasRef] is [None]
    until the canvas is created; [allocated] counts the fabric objects
    constructed so far and supplies the identity of the next one. *)
Record Board : Type := mkBoard {
  tool : Tool;
  color : string;
  width : number;
  smoothing : number;
  zoom : number;
  panX : number;
  panY : number;
  isPanning : bool;
  layers : list Layer;
  activeLayerId : string;
  pointsRef : list Pt;
  drawingRef : bool;
  fabricCanvasRef : option Canvas;
  allocated : nat
}.

Definition setZoom (z : number) (b : Board) : Board :=
  mkBoard (tool b) (color b) (width b) (smoothing b) z (panX b) (panY b)
    (isPanning b) (layers b) (activeLayerId b) (pointsRef b) (drawingRef b)
    (fabricCanvasRef b) (allocated b).

Definition setPanX (v : number) (b : Board) : Board :=
  mkBoard (tool b) (color b) (width b) (smoothing b) (zoom b) v (panY b)
    (isPanning b) (layers b) (activeLayerId b) (pointsRef b) (drawingRef b)
    (fabricCanvasRef b) (allocated b).

Definition setPanY (v : number) (b : Board) : Board :=
  mkBoard (tool b) (color b) (width b) (smoothing b) (zoom b) (panX b) v
    (isPanning b) (layers b) (activeLayerId b) (pointsRef b) (drawingRef b)
    (fabricCanvasRef b) (allocated b).

Definition setLayers (ls : list Layer) (b : Board) : Board :=
  mkBoard (tool b) (color b) (width b) (smoothing b) (zoom b) (panX b)
    (panY b) (isPanning b) ls (activeLayerId b) (pointsRef b) (drawingRef b)
    (fabricCanvasRef b) (allocated b).

Definition setActiveLayerId (i : string) (b : Board) : Board :=
  mkBoard (tool b) (color b) (width b) (smoothing b) (zoom b) (panX b)
    (panY b) (isPanning b) (layers b) i (pointsRef b) (drawingRef b)
    (fabricCanvasRef b) (allocated b).

Definition setPoints (pts : list Pt) (b : Board) : Board :=
  mkBoard (tool b) (color b) (width b) (smoothing b) (zoom b) (panX b)
    (panY b) (isPanning b) (layers b) (activeLayerId b) pts (drawingRef b)
    (fabricCanvasRef b) (allocated b).

Definition setDrawing (d : bool) (b : Board) : Board :=
  mkBoard (tool b) (color b) (width b) (smoothing b) (zoom b) (panX b)
    (panY b) (isPanning b) (layers b) (activeLayerId b) (pointsRef b) d
    (fabricCanvasRef b) (allocated b).

Definition setCanvas (c : Canvas) (b : Board) : Board :=
  mkBoard (tool b) (color b) (width b) (smoothing b) (zoom b) (panX b)
    (panY b) (isPanning b) (layers b) (activeLayerId b) (pointsRef b)
    (drawingRef b) (Some c) (allocated b).

Definition setTool (v : Tool) (b : Board) : Board :=
  mkBoard v (color b) (width b) (smoothing b) (zoom b) (panX b) (panY b)
    (isPanning b) (layers b) (activeLayerId b) (pointsRef b) (drawingRef b)
    (fabricCanvasRef b) (allocated b).

Definition setColor (v : string) (b : Board) : Board :=
  mkBoard (tool b) v (width b) (smoothing b) (zoom b) (panX b) (panY b)
    (isPanning b) (layers b) (activeLayerId b) (pointsRef b) (drawingRef b)
    (fabricCanvasRef b) (allocated b).

Definition setWidth (v : number) (b : Board) : Board :=
  mkBoard (tool b) (color b) v (smoothing b) (zoom b) (panX b) (panY b)
    (isPanning b) (layers b) (activeLayerId b) (pointsRef b) (drawingRef b)
    (fabricCanvasRef b) (allocated b).

Definition setSmoothing (v : number) (b : Board) : Board :=
  mkBoard (tool b) (color b) (width b) v (zoom b) (panX b) (panY b)
    (isPanning b) (layers b) (activeLayerId b) (pointsRef b) (drawingRef b)
    (fabricCanvasRef b) (allocated b).

Definition setIsPanning (v : bool) (b : Board) : Board :=
  mkBoard (tool b) (color b) (width b) (smoothing b) (zoom b) (panX b)
    (panY b) v (layers b) (activeLayerId b) (pointsRef b) (drawingRef b)
    (fabricCanvasRef b) (allocated b).

(** [new Rect(..)], [new Circle(..)], [new Path(..)]: the object gets the
    next identity. *)
Definition construct (f : string) (s : Shape) (b : Board)
  : FabricObject * Board :=
  (mkObject (allocated b) f s,
   mkBoard (tool b) (color b) (width b) (smoothing b) (zoom b) (panX b)
     (panY b) (isPanning b) (layers b) (activeLayerId b) (pointsRef b)
     (drawingRef b) (fabricCanvasRef b) (S (allocated b))).

(** The values of [useState] and [useRef] at the first render. *)
Definition initial : Board :=
  mkBoard draw "#3b82f6" 6%Q (6 # 10)%Q 1%Q 0%Q 0%Q false
    [mkLayer "layer-1" "Layer 1" true false []] "layer-1"
    [] false None 0.

(** The first effect: the fabric canvas is created. *)
Definition mount (b : Board) : Board := setCanvas Fabric.empty b.

(** [arr.push(a)]. *)
Definition push {A : Type} (a : A) (arr : list A) : list A := (arr ++ [a])%list.

(** *** Pointer handlers *)

Definition getPos (rect : Ev.DOMRect) (e : Ev.PointerEvent)
  : number * number :=
  ((Ev.clientX e - Ev.left rect)%Q, (Ev.clientY e - Ev.top rect)%Q).

Definition onPointerDown (rect : Ev.DOMRect) (e : Ev.PointerEvent)
    (b : Board) : Board :=
  match fabricCanvasRef b with
  | None => b
  | Some _ =>
    if isPanning b then
      let b := setDrawing true b in
      let '(ex, ey) := getPos rect e in
      setPoints [mkPt ex ey (1 # 2)%Q (Ev.timeStamp e)] b
    else if Tool_eqb (tool b) draw then
      let b := setDrawing true b in
      let b := setPoints [] b in
      let '(ex, ey) := getPos rect e in
      setPoints
        (push (mkPt ex ey (or_else (Ev.pressure e) (1 # 2)%Q) (Ev.timeStamp e))
              (pointsRef b)) b
    else if Tool_eqb (tool b) lasso then
      let b := setDrawing true b in
      let b := setPoints [] b in
      let '(ex, ey) := getPos rect e in
      setPoints (push (mkPt ex ey (1 # 2)%Q (Ev.timeStamp e)) (pointsRef b)) b
    else b
  end.

Definition onPointerMove (rect : Ev.DOMRect) (e : Ev.PointerEvent)
    (b : Board) : Board :=
  match fabricCanvasRef b with
  | None => b
  | Some _ =>
    if negb (drawingRef b) then b
    else
      let '(ex, ey) := getPos rect e in
      if isPanning b then
        let b :=
          match nth_error (pointsRef b) (List.length (pointsRef b) - 1) with
          | Some lastPoint =>
              let deltaX := (ex - lastPoint.(x))%Q in
              let deltaY := (ey - lastPoint.(y))%Q in
              setPanY (panY b + deltaY)%Q (setPanX (panX b + deltaX)%Q b)
          | None => b
          end in
        setPoints [mkPt ex ey (1 # 2)%Q (Ev.timeStamp e)] b
      else if Tool_eqb (tool b) draw then
        setPoints
          (push (mkPt ex ey (or_else (Ev.pressure e) (1 # 2)%Q)
                   (Ev.timeStamp e))
                (pointsRef b)) b
      else if Tool_eqb (tool b) lasso then
        setPoints (push (mkPt ex ey (1 # 2)%Q (Ev.timeStamp e)) (pointsRef b)) b
      else b
  end.

(** *** The point-in-polygon test *)

(** The condition of the [if] inside the loop, for the vertices
    [polygon[i]] and [polygon[j]]. *)
Definition crosses (point : Point) (pi pj : Pt) : bool :=
  xorb (gt pi.(y) (Fabric.y point)) (gt pj.(y) (Fabric.y point))
  && lt (Fabric.x point)
        ((pj.(x) - pi.(x)) * (Fabric.y point - pi.(y)) / (pj.(y) - pi.(y))
         + pi.(x))%Q.

(** [polygon[i]]; every index the loop reads is inside the array. *)
Definition at_index (polygon : list Pt) (i : nat) : Pt :=
  nth i polygon (mkPt 0%Q 0%Q 0%Q 0%Q).

(** The [for] loop, with [steps] iterations left: [i] runs upwards and
    [j] follows it ([j = i++]). *)
Fixpoint pip_loop (point : Point) (polygon : list Pt) (steps i j : nat)
    (inside : bool) : bool :=
  match steps with
  | O => inside
  | S steps' =>
      let inside :=
        if crosses point (at_index polygon i) (at_index polygon j)
        then negb inside else inside in
      pip_loop point polygon steps' (S i) i inside
  end.

Definition isPointInPolygon (point : Point) (polygon : list Pt) : bool :=
  pip_loop point polygon (List.length polygon) 0 (List.length polygon - 1)
    false.

(** *** Finishing a gesture *)

Section Gestures.
Context {E : Externals}.

Definition strokeOptions (b : Board) : StrokeOptions :=
  mkStrokeOptions (width b) (smoothing b) (6 # 10)%Q (4 # 10)%Q false.

Definition finalizeStroke (b : Board) : Board :=
  match fabricCanvasRef b with
  | None => b
  | Some fabric =>
    let pts := pointsRef b in
    let b := setDrawing false b in
    if (List.length pts <? 2)%nat then b
    else
      let stroke :=
        getStroke (map (fun p => (p.(x), p.(y), p.(pressure))) pts)
                  (strokeOptions b) in
      if Nat.eqb (List.length stroke) 0 then b
      else
        let pathData := getSvgPathFromStroke stroke in
        let '(path, b) := construct (color b) (Path pathData true true) b in
        setCanvas (Fabric.add path fabric) b
  end.

Definition finalizeLasso (b : Board) : Board :=
  match fabricCanvasRef b with
  | None => b
  | Some fabric =>
    let pts := pointsRef b in
    let b := setDrawing false b in
    if (List.length pts <? 3)%nat then b
    else
      let objects := getObjects fabric in
      let selectedObjects :=
        filter (fun obj => isPointInPolygon (getCenterPoint obj) pts)
               objects in
      if (0 <? List.length selectedObjects)%nat then
        let fabric := discardActiveObject fabric in
        let fabric :=
          match selectedObjects with
          | [only] => setActiveObject (Single only) fabric
          | _ => setActiveObject (ActiveSelection selectedObjects) fabric
          end in
        setCanvas fabric b
      else b
  end.

Definition onPointerUp (b : Board) : Board :=
  match fabricCanvasRef b with
  | None => b
  | Some _ =>
    if isPanning b then setDrawing false b
    else if Tool_eqb (tool b) draw then finalizeStroke b
    else if Tool_eqb (tool b) lasso then finalizeLasso b
    else b
  end.

End Gestures.

(** *** Zoom *)

(** The body of the timer callback in the wheel listener.  The listener
    exists only once the canvas does, and is registered anew whenever
    [zoom] changes, so the [zoom] it closes over is the current one. *)
Definition handleWheel (deltaY : number) (b : Board) : Board :=
  match fabricCanvasRef b with
  | None => b
  | Some _ =>
    let zoomStep := (1 # 10)%Q in
    let newZoom :=
      Math_max (1 # 10)%Q
        (Math_min 5%Q
           (zoom b + (if gt deltaY 0%Q then - zoomStep else zoomStep))%Q) in
    setZoom newZoom b
  end.

Definition handleZoomIn (b : Board) : Board :=
  setZoom (Math_min 5%Q (zoom b + (2 # 10))%Q) b.

Definition handleZoomOut (b : Board) : Board :=
  setZoom (Math_max (1 # 10)%Q (zoom b - (2 # 10))%Q) b.

Definition handleResetView (b : Board) : Board :=
  setPanY 0%Q (setPanX 0%Q (setZoom 1%Q b)).

Definition handleFitToCanvas (b : Board) : Board :=
  match fabricCanvasRef b with
  | None => b
  | Some _ => setPanY 0%Q (setPanX 0%Q (setZoom 1%Q b))
  end.

Definition handleViewportChange (vx vy : number) (b : Board) : Board :=
  setPanY vy (setPanX vx b).

(** *** Layers *)

Definition handleLayerSelect (i : string) (b : Board) : Board :=
  setActiveLayerId i b.

(** [now] is the value of [Date.now()] at the call. *)
Definition handleLayerAdd (now : N) (b : Board) : Board :=
  let newLayer :=
    mkLayer ("layer-" ++ string_of_N now)
            ("Layer " ++ string_of_N (N.of_nat (List.length (layers b) + 1)))
            true false [] in
  let b := setLayers (layers b ++ [newLayer])%list b in
  setActiveLayerId newLayer.(id) b.

Definition handleLayerDelete (i : string) (b : Board) : Board :=
  if (List.length (layers b) <=? 1)%nat then b
  else
    let captured := layers b in
    let active := activeLayerId b in
    let b := setLayers (filter (fun l => negb (String.eqb l.(id) i)) (layers b)) b in
    if String.eqb active i then
      let first := match captured with l0 :: _ => l0.(id) | [] => active end in
      let next :=
        match find (fun l => negb (String.eqb l.(id) i)) captured with
        | Some l => if String.eqb l.(id) "" then first else l.(id)
        | None => first
        end in
      setActiveLayerId next b
    else b.

Definition handleLayerToggleVisible (i : string) (b : Board) : Board :=
  setLayers
    (map (fun l => if String.eqb l.(id) i
                   then mkLayer l.(id) l.(name) (negb l.(visible)) l.(locked)
                          l.(objects)
                   else l) (layers b)) b.

Definition handleLayerToggleLock (i : string) (b : Board) : Board :=
  setLayers
    (map (fun l => if String.eqb l.(id) i
                   then mkLayer l.(id) l.(name) l.(visible) (negb l.(locked))
                          l.(objects)
                   else l) (layers b)) b.

(** [splice(fromIndex, 1)] then [splice(toIndex, 0, moved)].  When
    [fromIndex] addresses no element, [moved] is [undefined] and the array
    would receive an entry that is not a layer: the result is [None]. *)
Definition handleLayerReorder (fromIndex toIndex : Z) (b : Board)
  : option Board :=
  let '(removed, newLayers) := splice_remove1 fromIndex (layers b) in
  match removed with
  | moved :: _ => Some (setLayers (splice_insert toIndex moved newLayers) b)
  | [] => None
  end.

(** *** Shapes, undo, clear *)

Definition addRect (b : Board) : Board :=
  match fabricCanvasRef b with
  | None => b
  | Some canvas =>
    let '(rectObj, b) :=
      construct (color b) (Rect 120%Q 120%Q 160%Q 100%Q 8%Q 8%Q) b in
    setCanvas (setActiveObject (Single rectObj) (Fabric.add rectObj canvas)) b
  end.

Definition addCircle (b : Board) : Board :=
  match fabricCanvasRef b with
  | None => b
  | Some canvas =>
    let '(circleObj, b) := construct (color b) (Circle 160%Q 160%Q 60%Q) b in
    setCanvas (setActiveObject (Single circleObj) (Fabric.add circleObj canvas))
      b
  end.

Definition undo (b : Board) : Board :=
  match fabricCanvasRef b with
  | None => b
  | Some canvas =>
    let objects := getObjects canvas in
    if Nat.eqb (List.length objects) 0 then b
    else
      match nth_error objects (List.length objects - 1) with
      | Some lastObj =>
          setCanvas (discardActiveObject (Fabric.remove lastObj canvas)) b
      | None => b
      end
  end.

Definition clearAll (b : Board) : Board :=
  match fabricCanvasRef b with
  | None => b
  | Some canvas => setCanvas (Fabric.clear canvas) b
  end.

(** *** Keyboard *)

Definition handleKeyDown (code : string) (b : Board) : Board :=
  if String.eqb code "Space" && negb (isPanning b) && negb (drawingRef b)
  then setIsPanning true b else b.

Definition handleKeyUp (code : string) (b : Board) : Board :=
  if String.eqb code "Space" && isPanning b
  then setIsPanning false b else b.

(** ** The board as a transition system *)

(** Everything that can happen to the component: the DOM events it listens
    to and the callbacks it hands to the toolbar, the zoom controls, the
    minimap and the layer panel. *)
Inductive Action : Type :=
| Mount
| SetTool (v : Tool)
| SetColor (v : string)
| SetWidth (v : number)
| SetSmoothing (v : number)
| KeyDown (code : string)
| KeyUp (code : string)
| Wheel (deltaY : number)
| PointerDown (rect : Ev.DOMRect) (e : Ev.PointerEvent)
| PointerMove (rect : Ev.DOMRect) (e : Ev.PointerEvent)
| PointerUp
| ZoomIn
| ZoomOut
| ResetView
| FitToCanvas
| ViewportChange (vx vy : number)
| LayerSelect (i : string)
| LayerAdd (now : N)
| LayerDelete (i : string)
| LayerToggleVisible (i : string)
| LayerToggleLock (i : string)
| LayerReorder (fromIndex toIndex : Z)
| AddRect
| AddCircle
| Undo
| ClearAll.

Section Transitions.
Context {E : Externals}.

Definition step (a : Action) (b : Board) : option Board :=
  match a with
  | Mount =>
      match fabricCanvasRef b with
      | None => Some (mount b)
      | Some _ => None
      end
  | SetTool v => Some (setTool v b)
  | SetColor v => Some (setColor v b)
  | SetWidth v => Some (setWidth v b)
  | SetSmoothing v => Some (setSmoothing v b)
  | KeyDown code => Some (handleKeyDown code b)
  | KeyUp code => Some (handleKeyUp code b)
  | Wheel deltaY => Some (handleWheel deltaY b)
  | PointerDown rect e => Some (onPointerDown rect e b)
  | PointerMove rect e => Some (onPointerMove rect e b)
  | PointerUp => Some (onPointerUp b)
  | ZoomIn => Some (handleZoomIn b)
  | ZoomOut => Some (handleZoomOut b)
  | ResetView => Some (handleResetView b)
  | FitToCanvas => Some (handleFitToCanvas b)
  | ViewportChange vx vy => Some (handleViewportChange vx vy b)
  | LayerSelect i => Some (handleLayerSelect i b)
  | LayerAdd now => Some (handleLayerAdd now b)
  | LayerDelete i => Some (handleLayerDelete i b)
  | LayerToggleVisible i => Some (handleLayerToggleVisible i b)
  | LayerToggleLock i => Some (handleLayerToggleLock i b)
  | LayerReorder fromIndex toIndex => handleLayerReorder fromIndex toIndex b
  | AddRect => Some (addRect b)
  | AddCircle => Some (addCircle b)
  | Undo => Some (undo b)
  | ClearAll => Some (clearAll b)
  end.

(** Running a list of actions, oldest first. *)
Fixpoint run (acts : list Action) (b : Board) : option Board :=
  match acts with
  | [] => Some b
  | a :: rest =>
      match step a b with
      | Some b' => run rest b'
      | None => None
      end
  end.

(** The boards reached from the first render when every action taken
    satisfies [ok] in the board it is taken in. *)
Inductive reachable_when (ok : Action -> Board -> Prop) : Board -> Prop :=
| reach_initial : reachable_when ok initial
| reach_step (a : Action) (b b' : Board) :
    reachable_when ok b -> ok a b -> step a b = Some b' ->
    reachable_when ok b'.

Definition reachable : Board -> Prop := reachable_when (fun _ _ => True).

End Transitions.

(** The six callbacks given to the layer panel. *)
Definition is_layer_action (a : Action) : bool :=
  match a with
  | LayerSelect _ | LayerAdd _ | LayerDelete _ | LayerToggleVisible _
  | LayerToggleLock _ | LayerReorder _ _ => true
  | _ => false
  end.

(** ** Vocabulary of the statements *)

Definition layer_ids (b : Board) : list string := map id (layers b).

(** [handleLayerAdd] is given a time stamp whose id is not in use. *)
Definition fresh_stamp (a : Action) (b : Board) : Prop :=
  match a with
  | LayerAdd now => ~ In ("layer-" ++ string_of_N now) (layer_ids b)
  | _ => True
  end.

(** Pointer events report a pressure between 0 and 1. *)
Definition pressure_in_range (a : Action) (b : Board) : Prop :=
  match a with
  | PointerDown _ e | PointerMove _ e =>
      (0 <= Ev.pressure e)%Q /\ (Ev.pressure e <= 1)%Q
  | _ => True
  end.

(** The sample the draw branch records for an event. *)
Definition sample_of (rect : Ev.DOMRect) (e : Ev.PointerEvent) : Pt :=
  mkPt (Ev.clientX e - Ev.left rect)%Q (Ev.clientY e - Ev.top rect)%Q
       (if Qeq_bool (Ev.pressure e) 0%Q then (1 # 2)%Q else Ev.pressure e)
       (Ev.timeStamp e).

(** The range the zoom factor is kept in. *)
Definition zoom_in_range (z : number) : Prop :=
  ((1 # 10) <= z)%Q /\ (z <= 5)%Q.

(** Crossing number.  The edges of a polygon join each vertex [i] to its
    predecessor [j], the last vertex preceding the first. *)
Definition edges (polygon : list Pt) : list (Pt * Pt) :=
  let n := List.length polygon in
  map (fun i => (at_index polygon i, at_index polygon ((i + n - 1) mod n)))
      (seq 0 n).

(** The threshold tests of the two end points differ. *)
Definition straddles (h : number) (pi pj : Pt) : bool :=
  negb (Bool.eqb (gt pi.(y) h) (gt pj.(y) h)).

(** The x coordinate of the edge at height [h]. *)
Definition edge_x_at (h : number) (pi pj : Pt) : number :=
  ((pj.(x) - pi.(x)) * (h - pi.(y)) / (pj.(y) - pi.(y)) + pi.(x))%Q.

(** An edge is counted when the ray to the right of [point] crosses it. *)
Definition counted (point : Point) (e : Pt * Pt) : bool :=
  straddles (Fabric.y point) (fst e) (snd e)
  && lt (Fabric.x point) (edge_x_at (Fabric.y point) (fst e) (snd e)).

Definition crossing_number (point : Point) (polygon : list Pt) : nat :=
  List.length (filter (counted point) (edges polygon)).

(** The objects of a canvas whose centre the lasso encloses. *)
Definition enclosed {E : Externals} (lassoPts : list Pt) (c : Canvas)
  : list FabricObject :=
  filter (fun obj => isPointInPolygon (getCenterPoint obj) lassoPts)
         (getObjects c).

(** No layer record holds drawn content. *)
Definition layers_hold_nothing (b : Board) : Prop :=
  Forall (fun l => objects l = []) (layers b).

(** [fromIndex] designates a layer for [splice]. *)
Definition designates_layer (fromIndex : Z) (b : Board) : Prop :=
  (fromIndex < Z.of_nat (List.length (layers b)))%Z /\ layers b <> [].

(** The entries of the object array are distinct objects, all constructed
    before the [n]-th allocation. *)
Definition distinct_objects (c : option Canvas) (n : nat) : Prop :=
  match c with
  | Some canvas =>
      NoDup (map oid (getObjects canvas))
      /\ Forall (fun o => oid o < n) (getObjects canvas)
  | None => True
  end.

(** The fields of a layer other than one flag. *)
Definition flip_visible (l : Layer) : Layer :=
  mkLayer l.(id) l.(name) (negb l.(visible)) l.(locked) l.(objects).

Definition flip_locked (l : Layer) : Layer :=
  mkLayer l.(id) l.(name) l.(visible) (negb l.(locked)) l.(objects).

(** One path command: a letter, then the point with two decimals. *)
Definition command {E : Externals} (letter : string) (p : Vec2) : string :=
  letter ++ toFixed (fst p) 2 ++ " " ++ toFixed (snd p) 2 ++ " ".

Definition lineTos {E : Externals} (ps : list Vec2) : string :=
  String.concat "" (map (command "L") ps).

(** ** An instance for running the definitions *)

(** Stand-ins for the libraries: the outline of a stroke is its centre
    line, and the centre of a shape is the centre of its box. *)
Definition centre_of_shape (o : FabricObject) : Point :=
  match shape o with
  | Rect l tp w h _ _ => mkPoint (l + w / 2)%Q (tp + h / 2)%Q
  | Circle l tp r => mkPoint (l + r)%Q (tp + r)%Q
  | Path _ _ _ => mkPoint 0%Q 0%Q
  end.

Definition sample_externals : Externals :=
  {| toFixed := Decimal_toFixed.toFixed;
     getStroke := fun pts _ => map (fun p => (fst (fst p), snd (fst p))) pts;
     getCenterPoint := centre_of_shape |}.

(** ** The layer panel *)

(** The arrows of a layer row; [index] is the position of the row. *)
Definition handleMoveUp (index : Z) (b : Board) : option Board :=
  if (0 <? index)%Z then handleLayerReorder index (index - 1)%Z b
  else Some b.

Definition handleMoveDown (index : Z) (b : Board) : option Board :=
  if (index <? Z.of_nat (List.length (layers b)) - 1)%Z
  then handleLayerReorder index (index + 1)%Z b
  else Some b.

(** ** The zoom label *)

(** [Math.round]: the nearest integer, the larger one on a tie. *)
Definition Math_round (a : number) : Z := Qfloor (a + (1 # 2))%Q.

(** The percentage the zoom controls display. *)
Definition zoomLabel (z : number) : Z := Math_round (z * 100)%Q.

(** ** Interaction flags of the canvas *)

(** The three properties of the fabric canvas the board switches with the
    tool and while the space bar is held. *)
Module Flags.

Record Interaction : Type := mkInteraction {
  selection : bool;
  skipTargetFind : bool;
  defaultCursor : string
}.

(** The effect that runs when [tool] changes. *)
Definition toolEffect (tl : Tool) (f : Interaction) : Interaction :=
  let drawing := Tool_eqb tl draw in
  let selecting := Tool_eqb tl lasso in
  mkInteraction (negb drawing && negb selecting) (drawing || selecting)
    (if drawing then "crosshair"
     else if selecting then "crosshair" else "default").

(** What [handleKeyDown] and [handleKeyUp] do to the canvas. *)
Definition keyDown (code : string) (b : Board) (f : Interaction)
  : Interaction :=
  if String.eqb code "Space" && negb (isPanning b) && negb (drawingRef b)
  then mkInteraction (selection f) true "grab" else f.

Definition keyUp (code : string) (b : Board) (f : Interaction)
  : Interaction :=
  if String.eqb code "Space" && isPanning b
  then mkInteraction (selection f)
         (Tool_eqb (tool b) draw || Tool_eqb (tool b) lasso)
         (if Tool_eqb (tool b) draw then "crosshair" else "default")
  else f.

End Flags.

(** ** Sizing the canvases *)



(** ** Gestures as sequences of events *)

(** The pointer moves of one gesture, oldest first, each with the
    bounding rectangle of the overlay at that moment. *)
Definition moves (evs : list (Ev.DOMRect * Ev.PointerEvent)) (b : Board)
  : Board :=
  fold_left (fun b re => onPointerMove (fst re) (snd re) b) evs b.

(** The steps between consecutive positions: [b - a], [c - b], ... for
    the positions [a], [b], [c], ... *)
Fixpoint displacements (positions : list number) : list number :=
  match positions with
  | a :: (c :: _) as rest => (c - a)%Q :: displacements rest
  | _ => []
  end.

(** The event a gesture ends with. *)
Definition last_event (first : Ev.DOMRect * Ev.PointerEvent)
    (evs : list (Ev.DOMRect * Ev.PointerEvent))
  : Ev.DOMRect * Ev.PointerEvent :=
  last evs first.

(** ** Vocabulary of the further statements *)

(** Actions as the layer panel issues them: a row that is clicked
    belongs to a layer of the list; and [handleLayerAdd] gets a fresh
    time stamp. *)
Definition panel_action (a : Action) (b : Board) : Prop :=
  fresh_stamp a b
  /\ match a with
     | LayerSelect i => In i (layer_ids b)
     | _ => True
     end.

(** The active layer is one of the layers. *)
Definition active_layer_exists (b : Board) : Prop :=
  In (activeLayerId b) (layer_ids b).

(** The point the lasso branch records for an event. *)
Definition lasso_point (rect : Ev.DOMRect) (e : Ev.PointerEvent) : Pt :=
  mkPt (Ev.clientX e - Ev.left rect)%Q (Ev.clientY e - Ev.top rect)%Q
       (1 # 2)%Q (Ev.timeStamp e).

(** The height of the point is within the heights of the vertices: some
    vertex is below it or level with it, and some is strictly above. *)
Definition in_vertical_extent (point : Point) (polygon : list Pt) : Prop :=
  (exists v, In v polygon /\ (v.(y) <= Fabric.y point)%Q)
  /\ (exists v, In v polygon /\ (Fabric.y point < v.(y))%Q).

(** ** Tactics for the handlers *)

(** Case analysis on whatever a handler branches on. *)
Ltac break_branch :=
  match goal with
  | |- context [match ?d with _ => _ end] =>
      lazymatch d with
      | context [match _ with _ => _ end] => fail
      | _ => destruct d eqn:?
      end
  end.

Ltac open_handlers :=
  unfold handleKeyDown, handleKeyUp, handleWheel, onPointerDown,
    onPointerMove, onPointerUp, finalizeStroke, finalizeLasso,
    handleZoomIn, handleZoomOut, handleResetView, handleFitToCanvas,
    handleViewportChange, handleLayerSelect, handleLayerAdd,
    handleLayerDelete, handleLayerToggleVisible, handleLayerToggleLock,
    handleLayerReorder, addRect, addCircle, undo, clearAll, mount,
    construct, getPos in *.

(** A step that succeeds, opened into the branches of its handler. *)
Ltac open_step H :=
  unfold step in H; open_handlers;
  repeat (first [ progress cbn beta iota in H | break_branch_in H ])
with break_branch_in H :=
  match type of H with
  | context [match ?d with _ => _ end] =>
      lazymatch d with
      | context [match _ with _ => _ end] => fail
      | _ => destruct d eqn:?
      end
  end.

(** * Properties *)



(** ** Strings *)

Lemma append_assoc (a b c : string) : (a ++ b) ++ c = a ++ (b ++ c).
Proof.
  induction a as [|ch a IH]; simpl; [reflexivity | now rewrite IH].
Qed.

Lemma append_empty_r (a : string) : a ++ "" = a.
Proof.
  induction a as [|ch a IH]; simpl; [reflexivity | now rewrite IH].
Qed.

(** ** The SVG path *)

Section SvgPathFacts.
Context {E : Externals}.

Lemma lineTos_cons (q : Vec2) (ps : list Vec2) :
  lineTos (q :: ps) = command "L" q ++ lineTos ps.
Proof.
  unfold lineTos. destruct ps as [|r ps]; simpl.
  - now rewrite append_empty_r.
  - reflexivity.
Qed.

(** The reducer past the first point: every point left contributes an
    "L" command, and the last one also closes the path on [arr[0]]. *)
Lemma reduce_from_tail (first : Vec2) :
  forall (rest pre : list Vec2) (acc : string),
    rest <> [] ->
    reduce_from path_reducer (first :: pre ++ rest)%list
      (S (List.length pre)) rest acc
    = acc ++ lineTos rest
          ++ "L" ++ toFixed (fst first) 2 ++ " " ++ toFixed (snd first) 2
          ++ " Z".
Proof.
  induction rest as [|q rest IH]; intros pre acc Hne; [congruence|].
  cbn [reduce_from].
  assert (Hlen : List.length (first :: pre ++ q :: rest)%list
                 = S (List.length pre) + S (List.length rest)).
  { cbn [List.length]. rewrite length_app. cbn [List.length]. lia. }
  destruct rest as [|r rest].
  - (* the last point *)
    cbn [reduce_from]. unfold path_reducer. destruct q as [x0 y0].
    rewrite Hlen. cbn [List.length].
    replace ((S (List.length pre) + 1) mod (S (List.length pre) + 1))
      with 0 by (symmetry; apply Nat.Div0.mod_same).
    cbn [nth]. destruct first as [fx fy].
    replace (Nat.eqb (S (List.length pre)) (S (List.length pre) + 1 - 1))
      with true by (symmetry; apply Nat.eqb_eq; lia).
    cbn [Nat.eqb reduce_from fst snd].
    rewrite lineTos_cons. unfold lineTos, command. cbn [map String.concat fst snd].
    rewrite !append_assoc. reflexivity.
  - (* a point in the middle *)
    replace (first :: pre ++ q :: r :: rest)%list
      with (first :: (pre ++ [q]) ++ r :: rest)%list
      by (now rewrite <- app_assoc).
    replace (S (S (List.length pre))) with (S (List.length (pre ++ [q])%list))
      by (rewrite length_app; cbn [List.length]; lia).
    assert (Hstep :
      path_reducer acc q (S (List.length pre))
        (first :: (pre ++ [q]) ++ r :: rest)%list
      = acc ++ command "L" q).
    { unfold path_reducer. destruct q as [x0 y0].
      destruct (nth _ _ _) as [x1 y1].
      match goal with
      | |- context [Nat.eqb (S ?a) (?b - 1)] =>
          destruct (Nat.eqb_spec (S a) (b - 1)) as [Heq|Hneq]
      end; [|reflexivity].
      exfalso. revert Heq. cbn [List.length].
      rewrite !length_app. cbn [List.length]. lia. }
    rewrite Hstep, IH by congruence.
    rewrite (lineTos_cons q). rewrite !append_assoc. reflexivity.
Qed.

End SvgPathFacts.

(** C8. [getSvgPathFromStroke] maps the empty list to the empty string;
    for a non-empty list it writes an "M" command at the first point, an
    "L" command for each later point, then an "L" command back to the
    first point and "Z".  Coordinates are printed by [toFixed(2)]. *)
Theorem getSvgPathFromStroke_closed_path {E : Externals} :
  getSvgPathFromStroke [] = "" /\
  forall (p : Vec2) (ps : list Vec2),
    getSvgPathFromStroke (p :: ps)
    = command "M" p ++ lineTos ps
        ++ "L" ++ toFixed (fst p) 2 ++ " " ++ toFixed (snd p) 2 ++ " Z".
Proof.
  split; [reflexivity|].
  intros p ps. unfold getSvgPathFromStroke, reduce.
  cbn [List.length Nat.eqb reduce_from].
  destruct ps as [|q ps].
  - destruct p as [x0 y0]. cbn. now rewrite !append_assoc.
  - assert (Hfirst : path_reducer "" p 0 (p :: q :: ps) = command "M" p).
    { unfold path_reducer. destruct p as [x0 y0].
      destruct (nth _ _ _) as [x1 y1]. reflexivity. }
    rewrite Hfirst.
    apply (reduce_from_tail p (q :: ps) [] (command "M" p)). congruence.
Qed.

Example getSvgPathFromStroke_triangle :
  @getSvgPathFromStroke sample_externals
    [(1, 2)%Q; ((3 # 2)%Q, 4%Q); (5, 6)%Q]
  = "M1.00 2.00 L1.50 4.00 L5.00 6.00 L1.00 2.00 Z".
Proof. vm_compute. reflexivity. Qed.

(** ** Point in polygon *)

Lemma crosses_counted (point : Point) (pi pj : Pt) :
  crosses point pi pj = counted point (pi, pj).
Proof.
  unfold crosses, counted, straddles, edge_x_at. cbn [fst snd].
  now destruct (gt (y pi) (Fabric.y point)), (gt (y pj) (Fabric.y point)).
Qed.

Lemma odd_flip (b : bool) (k : nat) :
  xorb (negb b) (Nat.odd k) = xorb b (Nat.odd (S k)).
Proof.
  rewrite Nat.odd_succ, <- Nat.negb_odd. now destruct b, (Nat.odd k).
Qed.

(** The predecessor index used for the edges, spelled with [mod]. *)
Lemma pred_index (n i : nat) :
  1 <= i -> i < n -> (i + n - 1) mod n = i - 1.
Proof.
  intros Hi Hn.
  replace (i + n - 1) with ((i - 1) + 1 * n) by lia.
  rewrite Nat.Div0.mod_add. apply Nat.mod_small. lia.
Qed.

(** From the second iteration on, [j] is [i - 1]: the loop toggles
    [inside] once for every counted edge it visits. *)
Lemma pip_loop_counts (point : Point) (polygon : list Pt) :
  forall (steps i : nat) (inside : bool),
    1 <= i -> i + steps <= List.length polygon ->
    pip_loop point polygon steps i (i - 1) inside
    = xorb inside
        (Nat.odd
           (List.length
              (filter (counted point)
                 (map (fun k =>
                         (at_index polygon k,
                          at_index polygon
                            ((k + List.length polygon - 1)
                               mod List.length polygon)))
                      (seq i steps))))).
Proof.
  induction steps as [|steps IH]; intros i inside Hi Hle.
  - cbn. now destruct inside.
  - cbn [pip_loop seq map filter].
    rewrite pred_index by lia. rewrite crosses_counted.
    pose proof (IH (S i)) as IHi.
    replace (S i - 1) with i in IHi by lia.
    rewrite IHi by lia.
    destruct (counted point _); cbn [List.length].
    + apply odd_flip.
    + reflexivity.
Qed.

(** C2. [isPointInPolygon] is the crossing-number test: it answers [true]
    exactly when the number of polygon edges counted for the point is odd,
    an edge (i, j) being counted when the tests [polygon[i].y > point.y]
    and [polygon[j].y > point.y] differ and [point.x] is smaller than the
    x coordinate of the edge at the height of the point. *)
Theorem isPointInPolygon_crossing_parity (point : Point) (polygon : list Pt) :
  isPointInPolygon point polygon = Nat.odd (crossing_number point polygon).
Proof.
  unfold isPointInPolygon, crossing_number, edges.
  destruct polygon as [|p0 rest] eqn:Hpoly; [reflexivity|].
  rewrite <- Hpoly.
  assert (Hlen : List.length polygon = S (List.length rest))
    by (now rewrite Hpoly).
  rewrite Hlen. cbn [pip_loop seq map filter].
  replace (S (List.length rest) - 1) with (List.length rest) by lia.
  assert (Hlast : (0 + S (List.length rest) - 1) mod S (List.length rest)
                  = List.length rest)
    by (rewrite Nat.mod_small; lia).
  rewrite Hlast.
  rewrite crosses_counted.
  pose proof (pip_loop_counts point polygon (List.length rest) 1) as Hloop.
  rewrite Hlen in Hloop. replace (1 - 1) with 0 in Hloop by lia.
  rewrite Hloop by lia.
  destruct (counted point _); cbn [List.length].
  - rewrite odd_flip. reflexivity.
  - reflexivity.
Qed.

(** The x coordinate the test compares with lies on the line through the
    two end points, at the height asked for. *)
Lemma edge_x_at_on_edge (h : number) (pi pj : Pt) :
  ~ (y pj == y pi)%Q ->
  ((edge_x_at h pi pj - x pi) * (y pj - y pi) == (x pj - x pi) * (h - y pi))%Q.
Proof.
  intros Hne. unfold edge_x_at. field.
  intros H0. apply Hne. lra.
Qed.

(** The two threshold tests differ exactly when the height of the point
    separates the two end points (upper end excluded). *)
Lemma straddles_between (h : number) (pi pj : Pt) :
  straddles h pi pj = true <->
  ((y pj <= h)%Q /\ (h < y pi)%Q) \/ ((y pi <= h)%Q /\ (h < y pj)%Q).
Proof.
  unfold straddles, gt.
  destruct (Qle_bool (y pi) h) eqn:Hi, (Qle_bool (y pj) h) eqn:Hj; cbn;
    rewrite ?Qle_bool_iff in *;
    repeat match goal with
    | H : Qle_bool _ _ = false |- _ =>
        apply not_true_iff_false in H; rewrite Qle_bool_iff in H;
        apply Qnot_le_lt in H
    end; split; intros H; try discriminate; try tauto.
  - destruct H as [[H1 H2]|[H1 H2]]; exfalso; lra.
  - destruct H as [[H1 H2]|[H1 H2]]; exfalso; lra.
Qed.

Example isPointInPolygon_square :
  let square := [mkPt 0 0 (1 # 2) 0; mkPt 4 0 (1 # 2) 1;
                 mkPt 4 4 (1 # 2) 2; mkPt 0 4 (1 # 2) 3]%Q in
  isPointInPolygon (mkPoint 1 1)%Q square = true
  /\ isPointInPolygon (mkPoint 5 1)%Q square = false
  /\ crossing_number (mkPoint 1 1)%Q square = 1.
Proof. vm_compute. repeat split. Qed.

(** ** Zoom *)

Lemma clamp_in_range (z : number) :
  zoom_in_range (Math_max (1 # 10) (Math_min 5 z))%Q.
Proof.
  unfold zoom_in_range, Math_max, Math_min. split.
  - apply Q.le_max_l.
  - apply Q.max_lub; [lra | apply Q.le_min_l].
Qed.

Lemma zoom_in_in_range (z : number) :
  zoom_in_range z -> zoom_in_range (Math_min 5 (z + (2 # 10)))%Q.
Proof.
  unfold zoom_in_range, Math_min. intros [Hlo Hhi]. split.
  - apply Q.min_glb; lra.
  - apply Q.le_min_l.
Qed.

Lemma zoom_out_in_range (z : number) :
  zoom_in_range z -> zoom_in_range (Math_max (1 # 10) (z - (2 # 10)))%Q.
Proof.
  unfold zoom_in_range, Math_max. intros [Hlo Hhi]. split.
  - apply Q.le_max_l.
  - apply Q.max_lub; lra.
Qed.

Lemma one_in_range : zoom_in_range 1%Q.
Proof. unfold zoom_in_range. split; lra. Qed.

Lemma step_zoom {E : Externals} (a : Action) (b b' : Board) :
  step a b = Some b' -> zoom_in_range (zoom b) -> zoom_in_range (zoom b').
Proof.
  intros Hstep Hz.
  destruct a; open_step Hstep; inversion Hstep; subst; cbn;
    auto using clamp_in_range, zoom_in_in_range, zoom_out_in_range,
               one_in_range.
Qed.

(** Each zoom handler, from a zoom in range: the wheel clamps on both
    sides whatever the zoom was; zoom in and zoom out clamp on one side and
    rely on the range of the zoom they start from. *)
Lemma zoom_handlers_in_range (deltaY : number) (b : Board) :
  zoom_in_range (zoom b) ->
  zoom_in_range (zoom (handleWheel deltaY b))
  /\ zoom_in_range (zoom (handleZoomIn b))
  /\ zoom_in_range (zoom (handleZoomOut b))
  /\ zoom (handleResetView b) = 1%Q.
Proof.
  intros Hz. split; [|split; [|split]].
  - unfold handleWheel. destruct (fabricCanvasRef b); [|apply Hz].
    apply clamp_in_range.
  - apply (zoom_in_in_range _ Hz).
  - apply (zoom_out_in_range _ Hz).
  - reflexivity.
Qed.

Lemma reachable_zoom_in_range {E : Externals} (b : Board) :
  reachable b -> zoom_in_range (zoom b).
Proof.
  induction 1 as [|a b b' _ IH _ Hstep].
  - apply one_in_range.
  - eapply step_zoom; eassumption.
Qed.

(** C4. Zoom stays within [0.1, 5]: the zoom of the first render is 1, and
    in every board reached from it, by whatever actions, the zoom factor
    [z] satisfies 0.1 <= z <= 5, and so does the zoom that wheel zoom,
    [handleZoomIn], [handleZoomOut] and [handleResetView] (which sets 1)
    yield from there. *)
Theorem zoom_stays_in_range {E : Externals} (b : Board) :
  reachable b ->
  zoom initial = 1%Q
  /\ zoom_in_range (zoom b)
  /\ (forall deltaY : number, zoom_in_range (zoom (handleWheel deltaY b)))
  /\ zoom_in_range (zoom (handleZoomIn b))
  /\ zoom_in_range (zoom (handleZoomOut b))
  /\ zoom_in_range (zoom (handleResetView b)).
Proof.
  intros Hreach. apply reachable_zoom_in_range in Hreach.
  split; [reflexivity|]. split; [exact Hreach|].
  split; [|split; [|split]].
  - intros deltaY. now apply zoom_handlers_in_range.
  - now apply (zoom_handlers_in_range 0%Q).
  - now apply (zoom_handlers_in_range 0%Q).
  - apply one_in_range.
Qed.

Lemma zoom_stays_in_range_witness :
  let b := handleZoomOut (handleWheel (-3)%Q (handleZoomIn (mount initial))) in
  reachable (E := sample_externals) b
  /\ zoom_in_range (zoom b)
  /\ zoom_in_range (zoom (handleZoomIn b)).
Proof.
  assert (Hr : reachable (E := sample_externals)
                 (handleZoomOut
                    (handleWheel (-3)%Q (handleZoomIn (mount initial))))).
  { apply (reach_step _ ZoomOut
             (handleWheel (-3)%Q (handleZoomIn (mount initial))));
      [|exact I|reflexivity].
    apply (reach_step _ (Wheel (-3)%Q) (handleZoomIn (mount initial)));
      [|exact I|reflexivity].
    apply (reach_step _ ZoomIn (mount initial)); [|exact I|reflexivity].
    apply (reach_step _ Mount initial); [|exact I|reflexivity].
    apply reach_initial. }
  split; [exact Hr|].
  pose proof (zoom_stays_in_range _ Hr) as (_ & Hnow & _ & Hin & _).
  split; [exact Hnow | exact Hin].
Defined.

Example zoom_out_floor :
  (zoom (handleZoomOut (handleZoomOut (handleZoomOut (handleZoomOut
     (handleZoomOut (handleZoomOut initial)))))) == 1 # 10)%Q.
Proof. vm_compute. reflexivity. Qed.

(** ** Layers *)

Lemma filter_keeps_all {A : Type} (f : A -> bool) (l : list A) :
  (forall a, In a l -> f a = true) -> filter f l = l.
Proof.
  induction l as [|a l IH]; intros Hall; cbn; [reflexivity|].
  rewrite (Hall a) by now left.
  f_equal. apply IH. intros a' Ha'. apply Hall. now right.
Qed.

(** Filtering out an id that exactly one layer carries removes that layer
    and nothing else. *)
Lemma filter_out_unique_id (i : string) (before after : list Layer) (l : Layer) :
  id l = i ->
  ~ In i (map id before) -> ~ In i (map id after) ->
  filter (fun l' => negb (String.eqb (id l') i)) (before ++ l :: after)%list
  = (before ++ after)%list.
Proof.
  intros Hid Hb Ha.
  rewrite filter_app. cbn [filter].
  rewrite Hid, String.eqb_refl. cbn [negb].
  rewrite !filter_keeps_all; [reflexivity| |].
  - intros a Hin. apply negb_true_iff, String.eqb_neq.
    intros Heq. apply Ha. rewrite <- Heq. now apply in_map.
  - intros a Hin. apply negb_true_iff, String.eqb_neq.
    intros Heq. apply Hb. rewrite <- Heq. now apply in_map.
Qed.

Lemma layers_handleLayerDelete (i : string) (b : Board) :
  1 < List.length (layers b) ->
  layers (handleLayerDelete i b)
  = filter (fun l => negb (String.eqb (id l) i)) (layers b).
Proof.
  intros Hlen. unfold handleLayerDelete.
  destruct (Nat.leb_spec (List.length (layers b)) 1) as [Hle|_]; [lia|].
  cbn. destruct (String.eqb (activeLayerId b) i); reflexivity.
Qed.

(** What [handleLayerDelete] does to a list of distinct ids that has more
    than one layer. *)
Lemma handleLayerDelete_removes_one (i : string) (b : Board) :
  1 < List.length (layers b) -> NoDup (layer_ids b) ->
  layers (handleLayerDelete i b) <> []
  /\ ((~ In i (layer_ids b)
       /\ layers (handleLayerDelete i b) = layers b)
      \/ (exists (before : list Layer) (l : Layer) (after : list Layer),
            layers b = (before ++ l :: after)%list /\ id l = i
            /\ layers (handleLayerDelete i b) = (before ++ after)%list)).
Proof.
  intros Hlen Hnd. rewrite layers_handleLayerDelete by assumption.
  unfold layer_ids in *.
  destruct (in_dec string_dec i (map id (layers b))) as [Hin|Hout].
  - apply in_map_iff in Hin. destruct Hin as (l & Hid & Hl).
    apply in_split in Hl. destruct Hl as (before & after & Hsplit).
    rewrite Hsplit in Hnd, Hlen |- *.
    rewrite map_app in Hnd. cbn [map] in Hnd.
    pose proof (NoDup_remove_2 _ _ _ Hnd) as Hfresh.
    rewrite Hid in Hfresh.
    assert (Hb : ~ In i (map id before))
      by (intros H; apply Hfresh, in_or_app; now left).
    assert (Ha : ~ In i (map id after))
      by (intros H; apply Hfresh, in_or_app; now right).
    rewrite (filter_out_unique_id i before after l Hid Hb Ha).
    split.
    + rewrite length_app in Hlen. cbn [List.length] in Hlen.
      intros Hnil. apply (f_equal (@List.length Layer)) in Hnil.
      rewrite length_app in Hnil. cbn [List.length] in Hnil. lia.
    + right. now exists before, l, after.
  - assert (Hall : filter (fun l => negb (String.eqb (id l) i)) (layers b)
                   = layers b).
    { apply filter_keeps_all. intros a Ha.
      apply negb_true_iff, String.eqb_neq. intros Heq.
      apply Hout. rewrite <- Heq. now apply in_map. }
    rewrite Hall. split.
    + destruct (layers b); [cbn in Hlen; lia | congruence].
    + now left.
Qed.

(** The decimal rendering of a time stamp determines it. *)
Lemma string_of_N_inj (n m : N) : string_of_N n = string_of_N m -> n = m.
Proof.
  unfold string_of_N. intros H.
  apply (f_equal NilEmpty.uint_of_string) in H.
  rewrite !NilEmpty.usu in H. injection H as H.
  apply (f_equal N.of_uint) in H.
  now rewrite !DecimalN.Unsigned.of_to in H.
Qed.

(** The element [splice(k, 1)] takes out sits at index [k]. *)
Lemma removed_at_index {A : Type} (k : nat) (l : list A) (moved : A)
    (tl : list A) :
  firstn 1 (skipn k l) = moved :: tl ->
  l = (firstn k l ++ moved :: skipn (S k) l)%list.
Proof.
  intros Hrm. rewrite <- (firstn_skipn k l) at 1. f_equal.
  destruct (skipn k l) as [|a sk] eqn:Hsk; [discriminate|].
  cbn in Hrm. injection Hrm as Ha _. subst a.
  f_equal. replace (S k) with (1 + k) by lia.
  rewrite <- skipn_skipn, Hsk. reflexivity.
Qed.

Lemma inserted_permutation {A : Type} (k : nat) (rest : list A) (moved : A) :
  Permutation (firstn k rest ++ moved :: skipn k rest)%list (moved :: rest).
Proof.
  symmetry. rewrite <- (firstn_skipn k rest) at 1. apply Permutation_middle.
Qed.

(** Reordering permutes the layers. *)
Lemma splice_reorder_permutation {A : Type} (fromIndex toIndex : Z)
    (l removed rest : list A) (moved : A) (tl : list A) :
  splice_remove1 fromIndex l = (removed, rest) -> removed = moved :: tl ->
  Permutation (splice_insert toIndex moved rest) l.
Proof.
  unfold splice_remove1, splice_insert. intros Hsp Hrm.
  pose proof (f_equal fst Hsp) as Hremoved.
  pose proof (f_equal snd Hsp) as Hrest.
  cbn [fst snd] in Hremoved, Hrest. clear Hsp.
  rewrite Hrm in Hremoved. apply removed_at_index in Hremoved.
  apply Permutation_trans with (moved :: rest);
    [apply inserted_permutation|].
  rewrite <- Hrest.
  set (k := relative_start fromIndex (List.length l)) in *.
  generalize dependent (firstn k l). generalize dependent (skipn (S k) l).
  intros sk fk Hl _. rewrite Hl. exact (Permutation_middle fk sk moved).
Qed.

Lemma layer_id_inj (n m : N) :
  "layer-" ++ string_of_N n = "layer-" ++ string_of_N m -> n = m.
Proof.
  cbn. intros H. apply string_of_N_inj. congruence.
Qed.

(** A time stamp that differs from the stamp of every layer in the list
    gives a fresh id. *)
Lemma fresh_stamp_new_time (now : N) (b : Board) :
  (forall l, In l (layers b) ->
             exists m, id l = "layer-" ++ string_of_N m /\ m <> now) ->
  fresh_stamp (LayerAdd now) b.
Proof.
  intros Hstamps Hin. unfold layer_ids in Hin.
  apply in_map_iff in Hin. destruct Hin as (l & Hid & Hl).
  destruct (Hstamps l Hl) as (m & Hm & Hneq).
  apply Hneq, layer_id_inj. congruence.
Qed.

(** Only the six layer callbacks write the layer state. *)
Lemma step_layers_frame {E : Externals} (a : Action) (b b' : Board) :
  is_layer_action a = false -> step a b = Some b' ->
  layers b' = layers b /\ activeLayerId b' = activeLayerId b.
Proof.
  intros Hkind Hstep.
  destruct a; try discriminate Hkind; open_step Hstep;
    inversion Hstep; subst; cbn; auto.
Qed.

Lemma toggle_keeps_ids (f : Layer -> Layer) (i : string) (ls : list Layer) :
  (forall l, id (f l) = id l) ->
  map id (map (fun l => if String.eqb (id l) i then f l else l) ls)
  = map id ls.
Proof.
  intros Hf. rewrite map_map. apply map_ext.
  intros l. destruct (String.eqb (id l) i); [apply Hf | reflexivity].
Qed.

(** With fresh ids on every addition, the layer list keeps distinct ids and
    never becomes empty. *)
Lemma step_layers_distinct {E : Externals} (a : Action) (b b' : Board) :
  fresh_stamp a b -> step a b = Some b' ->
  layers b <> [] /\ NoDup (layer_ids b) ->
  layers b' <> [] /\ NoDup (layer_ids b').
Proof.
  intros Hfresh Hstep [Hne Hnd].
  destruct (is_layer_action a) eqn:Hkind.
  - destruct a; try discriminate Hkind; cbn [step] in Hstep.
    + (* select *)
      inversion Hstep; subst. now split.
    + (* add *)
      inversion Hstep; subst. unfold layer_ids in *. cbn in *. split.
      * destruct (layers b); discriminate.
      * rewrite map_app. cbn [map id].
        apply NoDup_rev in Hnd. rewrite <- (rev_involutive (_ ++ _)).
        apply NoDup_rev. rewrite rev_app_distr. cbn.
        constructor; [|assumption].
        intros Hin. apply in_rev in Hin. now apply Hfresh.
    + (* delete *)
      inversion Hstep; subst.
      destruct (Nat.leb_spec (List.length (layers b)) 1) as [Hle|Hgt].
      * unfold handleLayerDelete.
        apply Nat.leb_le in Hle. rewrite Hle. now split.
      * split; [now apply handleLayerDelete_removes_one|].
        unfold layer_ids in *.
        rewrite layers_handleLayerDelete by assumption.
        clear - Hnd. induction (layers b) as [|l ls IH]; cbn; [constructor|].
        inversion Hnd as [|? ? Hnotin Hnd']; subst.
        destruct (negb (String.eqb (id l) i)); cbn; [|now apply IH].
        constructor; [|now apply IH].
        intros Hin. apply Hnotin.
        apply in_map_iff in Hin. destruct Hin as (l' & Hid & Hl').
        apply filter_In in Hl'. rewrite <- Hid. apply in_map. tauto.
    + (* toggle visible *)
      inversion Hstep; subst. unfold layer_ids in *. cbn. split.
      * destruct (layers b); [congruence | discriminate].
      * now rewrite (toggle_keeps_ids flip_visible).
    + (* toggle lock *)
      inversion Hstep; subst. unfold layer_ids in *. cbn. split.
      * destruct (layers b); [congruence | discriminate].
      * now rewrite (toggle_keeps_ids flip_locked).
    + (* reorder *)
      unfold handleLayerReorder in Hstep.
      destruct (splice_remove1 fromIndex (layers b)) as [removed rest] eqn:Hsp.
      destruct removed as [|moved tl] eqn:Hrm; [discriminate|].
      inversion Hstep; subst. unfold layer_ids in *. cbn.
      pose proof (splice_reorder_permutation fromIndex toIndex (layers b)
                    _ rest moved tl Hsp eq_refl) as Hperm.
      split.
      * intros Hnil. rewrite Hnil in Hperm.
        apply Permutation_nil in Hperm. congruence.
      * eapply Permutation_NoDup; [|exact Hnd].
        apply Permutation_map. now symmetry.
  - destruct (step_layers_frame a b b' Hkind Hstep) as [Hl _].
    unfold layer_ids. rewrite Hl. now split.
Qed.

(** What the guard of [handleLayerDelete] achieves.  The board (layer
    list and active layer id) is unchanged when the list has at most one
    layer.  On a longer list whose ids are pairwise distinct the handler
    removes exactly the layer with the given id (nothing when no layer has
    it) and leaves a non-empty list.  Along runs in which every
    [handleLayerAdd] produces an id not yet in the list, ids stay pairwise
    distinct and the list is never empty. *)
Theorem handleLayerDelete_keeps_a_layer {E : Externals} :
  (forall (i : string) (b : Board),
      List.length (layers b) <= 1 -> handleLayerDelete i b = b)
  /\ (forall (i : string) (b : Board),
        1 < List.length (layers b) -> NoDup (layer_ids b) ->
        layers (handleLayerDelete i b) <> []
        /\ ((~ In i (layer_ids b)
             /\ layers (handleLayerDelete i b) = layers b)
            \/ (exists (before : list Layer) (l : Layer) (after : list Layer),
                  layers b = (before ++ l :: after)%list /\ id l = i
                  /\ layers (handleLayerDelete i b) = (before ++ after)%list)))
  /\ (forall b : Board,
        reachable_when fresh_stamp b ->
        layers b <> [] /\ NoDup (layer_ids b)).
Proof.
  split; [|split].
  - intros i b Hle. unfold handleLayerDelete.
    apply Nat.leb_le in Hle. now rewrite Hle.
  - intros i b. apply handleLayerDelete_removes_one.
  - induction 1 as [|a b b' _ IH Hok Hstep].
    + cbn. split; [discriminate|].
      repeat constructor. intros [].
    + eapply step_layers_distinct; eassumption.
Qed.

Lemma handleLayerDelete_keeps_a_layer_witness :
  let b := handleLayerAdd 7 initial in
  1 < List.length (layers b)
  /\ NoDup (layer_ids b)
  /\ layers (handleLayerDelete "layer-1" b) <> [].
Proof.
  assert (Hlen : 1 < List.length (layers (handleLayerAdd 7 initial)))
    by (cbn; lia).
  assert (Hnd : NoDup (layer_ids (handleLayerAdd 7 initial))).
  { cbn. constructor.
    - cbn. intros [H|[]]. discriminate H.
    - constructor; [intros []|constructor]. }
  split; [exact Hlen|]. split; [exact Hnd|].
  exact (proj1 (proj1 (proj2 (handleLayerDelete_keeps_a_layer
                                (E := sample_externals)))
                  "layer-1" (handleLayerAdd 7 initial) Hlen Hnd)).
Defined.

(** C3.  The layer list can be emptied, although [handleLayerDelete]
    refuses to delete from a list of one: two calls of [handleLayerAdd] at
    the same [Date.now()] give two layers the same id; after deleting
    "layer-1" the list holds these two, and deleting their id filters out
    both. *)
Lemma layers_emptied_by_shared_id :
  let acts := [LayerAdd 5; LayerAdd 5; LayerDelete "layer-1";
               LayerDelete "layer-5"] in
  option_map (fun b => List.length (layers b))
    (run (E := sample_externals) (firstn 3 acts) initial) = Some 2
  /\ option_map layers (run (E := sample_externals) acts initial) = Some [].
Proof. vm_compute. split; reflexivity. Qed.

Example delete_last_layer_refused :
  handleLayerDelete "layer-1" initial = initial.
Proof. reflexivity. Qed.

(** *** Layers and the drawing surface *)

Lemma layer_step_keeps_canvas {E : Externals} (a : Action) (b b' : Board) :
  is_layer_action a = true -> step a b = Some b' ->
  fabricCanvasRef b' = fabricCanvasRef b /\ allocated b' = allocated b.
Proof.
  intros Hkind Hstep.
  destruct a; try discriminate Hkind; open_step Hstep;
    inversion Hstep; subst; cbn; auto.
Qed.

Lemma relative_start_lt (fromIndex : Z) (len : nat) :
  relative_start fromIndex len < len <->
  (fromIndex < Z.of_nat len)%Z /\ 0 < len.
Proof.
  unfold relative_start.
  destruct (Z.ltb_spec fromIndex 0) as [Hneg|Hpos]; lia.
Qed.

(** [handleLayerReorder] yields a layer list exactly when [fromIndex]
    designates a layer. *)
Lemma handleLayerReorder_defined (fromIndex toIndex : Z) (b : Board) :
  designates_layer fromIndex b <->
  exists b', handleLayerReorder fromIndex toIndex b = Some b'.
Proof.
  unfold designates_layer, handleLayerReorder, splice_remove1.
  set (k := relative_start fromIndex (List.length (layers b))).
  pose proof (relative_start_lt fromIndex (List.length (layers b))) as Hk.
  fold k in Hk.
  destruct (skipn k (layers b)) as [|moved sk] eqn:Hsk; cbn [firstn].
  - split; [|intros [b' H]; discriminate].
    intros [Hlt Hne]. exfalso.
    assert (Hlen : List.length (skipn k (layers b)) = 0) by now rewrite Hsk.
    rewrite length_skipn in Hlen.
    destruct (layers b); [congruence|]. cbn [List.length] in *. lia.
  - split; [intros _; eauto|]. intros _.
    assert (Hlen : List.length (skipn k (layers b)) <> 0) by now rewrite Hsk.
    rewrite length_skipn in Hlen.
    assert (Hlt : k < List.length (layers b)) by lia.
    apply Hk in Hlt. split; [tauto|].
    destruct (layers b); [cbn in Hlt; lia | congruence].
Qed.

Lemma step_layers_hold_nothing {E : Externals} (a : Action) (b b' : Board) :
  step a b = Some b' -> layers_hold_nothing b -> layers_hold_nothing b'.
Proof.
  unfold layers_hold_nothing. intros Hstep Hall.
  destruct (is_layer_action a) eqn:Hkind.
  - destruct a; try discriminate Hkind; cbn [step] in Hstep.
    + inversion Hstep; subst. exact Hall.
    + inversion Hstep; subst. cbn.
      apply Forall_app. split; [exact Hall | now repeat constructor].
    + inversion Hstep; subst. unfold handleLayerDelete.
      destruct (List.length (layers b) <=? 1)%nat; [exact Hall|].
      assert (Hf : Forall (fun l => objects l = [])
                     (filter (fun l => negb (String.eqb (id l) i)) (layers b))).
      { rewrite Forall_forall in *. intros l Hl.
        apply filter_In in Hl. now apply Hall. }
      destruct (String.eqb (activeLayerId b) i); exact Hf.
    + inversion Hstep; subst. cbn.
      rewrite Forall_forall in *. intros l Hl.
      apply in_map_iff in Hl. destruct Hl as (l0 & Hl0 & Hin).
      specialize (Hall l0 Hin).
      destruct (String.eqb (id l0) i); subst l; cbn; assumption.
    + inversion Hstep; subst. cbn.
      rewrite Forall_forall in *. intros l Hl.
      apply in_map_iff in Hl. destruct Hl as (l0 & Hl0 & Hin).
      specialize (Hall l0 Hin).
      destruct (String.eqb (id l0) i); subst l; cbn; assumption.
    + unfold handleLayerReorder in Hstep.
      destruct (splice_remove1 fromIndex (layers b)) as [removed rest] eqn:Hsp.
      destruct removed as [|moved tl] eqn:Hrm; [discriminate|].
      inversion Hstep; subst. cbn.
      pose proof (splice_reorder_permutation fromIndex toIndex (layers b)
                    _ rest moved tl Hsp eq_refl) as Hperm.
      rewrite Forall_forall in *. intros l Hl. apply Hall.
      eapply Permutation_in; eassumption.
  - destruct (step_layers_frame a b b' Hkind Hstep) as [Hl _].
    now rewrite Hl.
Qed.

(** C6. Layer records carry no drawn content and the layer operations do
    not touch the drawing surface: every layer has [objects = []] at the
    first render and after every action; select, add, delete, toggle
    visible, toggle lock and reorder leave the fabric canvas (its object
    list included) as it was; and each of them goes through (reorder: when
    [fromIndex] designates a layer). *)
Theorem layers_hold_no_content {E : Externals} :
  (forall b : Board, reachable b -> layers_hold_nothing b)
  /\ (forall (a : Action) (b b' : Board),
        is_layer_action a = true -> step a b = Some b' ->
        layers_hold_nothing b ->
        layers_hold_nothing b' /\ fabricCanvasRef b' = fabricCanvasRef b)
  /\ (forall (a : Action) (b : Board),
        is_layer_action a = true ->
        (forall fromIndex toIndex,
            a = LayerReorder fromIndex toIndex ->
            designates_layer fromIndex b) ->
        exists b', step a b = Some b').
Proof.
  split; [|split].
  - induction 1 as [|a b b' _ IH _ Hstep].
    + repeat constructor.
    + eapply step_layers_hold_nothing; eassumption.
  - intros a b b' Hkind Hstep Hall. split.
    + eapply step_layers_hold_nothing; eassumption.
    + eapply layer_step_keeps_canvas; eassumption.
  - intros a b Hkind Hidx.
    destruct a; try discriminate Hkind; cbn [step]; eauto.
    apply handleLayerReorder_defined. now apply (Hidx fromIndex toIndex).
Qed.

Lemma layers_hold_no_content_witness :
  let b := addRect (mount initial) in
  layers_hold_nothing b
  /\ layers_hold_nothing (handleLayerAdd 9 b)
  /\ fabricCanvasRef (handleLayerAdd 9 b) = fabricCanvasRef b.
Proof.
  assert (H : layers_hold_nothing (addRect (mount initial)))
    by (repeat constructor).
  split; [exact H|].
  exact (proj1 (proj2 (layers_hold_no_content (E := sample_externals)))
           (LayerAdd 9) (addRect (mount initial)) _ eq_refl eq_refl H).
Defined.

(** ** The objects on the canvas *)

Lemma distinct_objects_add (c : Canvas) (n : nat) (f : string) (s : Shape)
    (act : option Active) :
  distinct_objects (Some c) n ->
  distinct_objects
    (Some (mkCanvas (getObjects c ++ [mkObject n f s])%list act)) (S n).
Proof.
  cbn. intros [Hnd Hlt]. split.
  - rewrite map_app. cbn [map oid].
    apply NoDup_rev in Hnd. rewrite <- (rev_involutive (_ ++ _)).
    apply NoDup_rev. rewrite rev_app_distr. cbn.
    constructor; [|assumption].
    intros Hin. apply in_rev, in_map_iff in Hin.
    destruct Hin as (o & Hoid & Ho).
    rewrite Forall_forall in Hlt. specialize (Hlt o Ho). lia.
  - apply Forall_app. split.
    + eapply Forall_impl; [|exact Hlt]. cbn. intros; lia.
    + repeat constructor.
Qed.

Lemma remove_first_incl (k : nat) (objs : list FabricObject) :
  forall o, In o (remove_first k objs) -> In o objs.
Proof.
  induction objs as [|a objs IH]; cbn; [tauto|].
  intros o. destruct (Nat.eqb (oid a) k); cbn; [tauto|].
  intros [H|H]; [now left | right; now apply IH].
Qed.

Lemma distinct_objects_remove (c : Canvas) (n k : nat) (act : option Active) :
  distinct_objects (Some c) n ->
  distinct_objects (Some (mkCanvas (remove_first k (getObjects c)) act)) n.
Proof.
  cbn. intros [Hnd Hlt]. split.
  - clear Hlt. induction (getObjects c) as [|a objs IH]; cbn; [constructor|].
    inversion Hnd as [|? ? Hnotin Hnd']; subst.
    destruct (Nat.eqb (oid a) k); [assumption|]. cbn.
    constructor; [|now apply IH].
    intros Hin. apply Hnotin. apply in_map_iff in Hin.
    destruct Hin as (o & Hoid & Ho). rewrite <- Hoid.
    apply in_map. eapply remove_first_incl; eassumption.
  - rewrite Forall_forall in *. intros o Ho. apply Hlt.
    eapply remove_first_incl; eassumption.
Qed.

(** Removing the last entry by identity, when no earlier entry is the
    same object. *)
Lemma remove_first_last (earlier : list FabricObject) (lastObj : FabricObject) :
  ~ In (oid lastObj) (map oid earlier) ->
  remove_first (oid lastObj) (earlier ++ [lastObj])%list = earlier.
Proof.
  induction earlier as [|a earlier IH]; cbn; intros Hnotin.
  - now rewrite Nat.eqb_refl.
  - destruct (Nat.eqb_spec (oid a) (oid lastObj)) as [Heq|Hneq].
    + exfalso. apply Hnotin. now left.
    + f_equal. apply IH. tauto.
Qed.

Lemma step_distinct_objects {E : Externals} (a : Action) (b b' : Board) :
  step a b = Some b' ->
  distinct_objects (fabricCanvasRef b) (allocated b) ->
  distinct_objects (fabricCanvasRef b') (allocated b').
Proof.
  intros Hstep Hok.
  destruct a; open_step Hstep; inversion Hstep; subst; cbn [fabricCanvasRef
    allocated setCanvas setDrawing setPoints setPanX setPanY setZoom
    setLayers setActiveLayerId setTool setColor setWidth setSmoothing
    setIsPanning discardActiveObject setActiveObject Fabric.add Fabric.remove
    Fabric.clear Fabric.empty getObjects getActiveObject];
    repeat match goal with
    | H : fabricCanvasRef ?x = _ |- context [fabricCanvasRef ?x] =>
        rewrite H
    end;
    try assumption;
    try (now apply distinct_objects_add);
    try (now apply distinct_objects_remove);
    try (cbn; split; constructor).
Qed.

(** Every object the board puts on the canvas is a new one. *)
Lemma reachable_distinct_objects {E : Externals} (b : Board) :
  reachable b -> distinct_objects (fabricCanvasRef b) (allocated b).
Proof.
  induction 1 as [|a b b' _ IH _ Hstep].
  - exact I.
  - eapply step_distinct_objects; eassumption.
Qed.

Lemma nth_error_last {A : Type} (earlier : list A) (lastObj : A) :
  nth_error (earlier ++ [lastObj])%list
    (List.length (earlier ++ [lastObj])%list - 1) = Some lastObj.
Proof.
  rewrite length_app. cbn [List.length].
  replace (List.length earlier + 1 - 1) with (List.length earlier) by lia.
  rewrite nth_error_app2 by lia.
  now rewrite Nat.sub_diag.
Qed.

(** [undo] on a canvas whose entries are distinct objects. *)
Lemma undo_on_distinct (b : Board) (canvas : Canvas) :
  fabricCanvasRef b = Some canvas ->
  NoDup (map oid (getObjects canvas)) ->
  (getObjects canvas = [] -> undo b = b)
  /\ (forall (earlier : list FabricObject) (lastObj : FabricObject),
        getObjects canvas = (earlier ++ [lastObj])%list ->
        undo b = setCanvas (mkCanvas earlier None) b).
Proof.
  intros Hc Hnd. unfold undo. rewrite Hc. split.
  - intros Hnil. now rewrite Hnil.
  - intros earlier lastObj Hobjs. rewrite Hobjs.
    rewrite nth_error_last.
    destruct (Nat.eqb_spec (List.length (earlier ++ [lastObj])%list) 0)
      as [Hz|_].
    { rewrite length_app in Hz. cbn in Hz. lia. }
    unfold Fabric.remove, discardActiveObject. cbn [getObjects].
    rewrite Hobjs, remove_first_last; [reflexivity|].
    rewrite Hobjs, map_app in Hnd. cbn [map] in Hnd.
    apply NoDup_remove_2 in Hnd. now rewrite app_nil_r in Hnd.
Qed.

(** C9. [undo] removes exactly the most recently added object: on a canvas
    with a non-empty object list, the list afterwards is the previous one
    without its last element, earlier objects unchanged and in order, and
    no object is active; on an empty object list [undo] changes nothing.
    The canvases are those of the boards the component can reach. *)
Theorem undo_removes_last_object {E : Externals} (b : Board) (canvas : Canvas) :
  reachable b -> fabricCanvasRef b = Some canvas ->
  (getObjects canvas = [] -> undo b = b)
  /\ (forall (earlier : list FabricObject) (lastObj : FabricObject),
        getObjects canvas = (earlier ++ [lastObj])%list ->
        undo b = setCanvas (mkCanvas earlier None) b).
Proof.
  intros Hreach Hc. apply undo_on_distinct; [assumption|].
  apply reachable_distinct_objects in Hreach.
  rewrite Hc in Hreach. apply Hreach.
Qed.

Lemma undo_removes_last_object_witness :
  let b := addCircle (addRect (mount initial)) in
  reachable (E := sample_externals) b
  /\ undo b
     = setCanvas
         (mkCanvas
            [mkObject 0 "#3b82f6" (Rect 120 120 160 100 8 8)%Q] None) b.
Proof.
  assert (Hr : reachable (E := sample_externals)
                 (addCircle (addRect (mount initial)))).
  { apply (reach_step _ AddCircle (addRect (mount initial)));
      [|exact I|reflexivity].
    apply (reach_step _ AddRect (mount initial)); [|exact I|reflexivity].
    apply (reach_step _ Mount initial); [|exact I|reflexivity].
    apply reach_initial. }
  split; [exact Hr|].
  exact (proj2 (undo_removes_last_object (E := sample_externals)
                  (addCircle (addRect (mount initial)))
                  (mkCanvas
                     [mkObject 0 "#3b82f6" (Rect 120 120 160 100 8 8)%Q;
                      mkObject 1 "#3b82f6" (Circle 160 160 60)%Q]
                     (Some (Single (mkObject 1 "#3b82f6"
                                      (Circle 160 160 60)%Q))))
                  Hr eq_refl)
           [mkObject 0 "#3b82f6" (Rect 120 120 160 100 8 8)%Q]
           (mkObject 1 "#3b82f6" (Circle 160 160 60)%Q) eq_refl).
Defined.

(** Two rectangles with the same properties are still two objects: [undo]
    takes the second one. *)
Example undo_equal_shapes :
  option_map getObjects
    (fabricCanvasRef (undo (addRect (addRect (mount initial)))))
  = Some [mkObject 0 "#3b82f6" (Rect 120 120 160 100 8 8)%Q].
Proof. reflexivity. Qed.

(** ** Finishing a stroke *)

(** C5. When the pen is lifted with at least two samples recorded and
    [getStroke] returns a non-empty outline, [finalizeStroke] appends one
    new path object to the canvas objects: its fill is the current color,
    its path data is [getSvgPathFromStroke] of the outline, and the
    objects already there are unchanged.  With fewer than two samples, or
    an empty outline, the canvas is unchanged. *)
Theorem finalizeStroke_adds_one_path {E : Externals} (b : Board)
    (fabric : Canvas) :
  fabricCanvasRef b = Some fabric ->
  let samples := map (fun p => (p.(x), p.(y), p.(pressure))) (pointsRef b) in
  let outline := getStroke samples (strokeOptions b) in
  let path :=
    mkObject (allocated b) (color b)
      (Path (getSvgPathFromStroke outline) true true) in
  (2 <= List.length (pointsRef b) -> outline <> [] ->
     fabricCanvasRef (finalizeStroke b)
     = Some (mkCanvas (getObjects fabric ++ [path])%list
               (getActiveObject fabric))
     /\ (distinct_objects (fabricCanvasRef b) (allocated b) ->
         ~ In (oid path) (map oid (getObjects fabric))))
  /\ (List.length (pointsRef b) < 2 \/ outline = [] ->
      fabricCanvasRef (finalizeStroke b) = Some fabric).
Proof.
  intros Hc samples outline path. unfold finalizeStroke. rewrite Hc.
  cbn [pointsRef setDrawing]. split.
  - intros Hlen Hout.
    destruct (Nat.ltb_spec (List.length (pointsRef b)) 2) as [Hlt|_]; [lia|].
    fold samples.
    change (strokeOptions (setDrawing false b)) with (strokeOptions b).
    fold outline.
    destruct (Nat.eqb_spec (List.length outline) 0) as [Hz|_].
    { destruct outline; [congruence | discriminate]. }
    split; [reflexivity|].
    cbn. intros [_ Hbound] Hin.
    apply in_map_iff in Hin. destruct Hin as (o & Hoid & Ho).
    rewrite Forall_forall in Hbound. specialize (Hbound o Ho). lia.
  - intros [Hlt|Hout].
    + destruct (Nat.ltb_spec (List.length (pointsRef b)) 2) as [_|Hge]; [|lia].
      cbn. exact Hc.
    + destruct (List.length (pointsRef b) <? 2)%nat; [exact Hc|].
      fold samples.
      change (strokeOptions (setDrawing false b)) with (strokeOptions b).
      fold outline. rewrite Hout. cbn. exact Hc.
Qed.

Lemma finalizeStroke_adds_one_path_witness :
  let rect := Ev.mkDOMRect 10%Q 20%Q in
  let down := Ev.mkPointerEvent 11%Q 22%Q 0%Q 100%Q in
  let move := Ev.mkPointerEvent 13%Q 24%Q (3 # 4)%Q 116%Q in
  let b := onPointerMove rect move (onPointerDown rect down (mount initial)) in
  fabricCanvasRef (finalizeStroke (E := sample_externals) b)
  = Some (mkCanvas
            [mkObject 0 "#3b82f6"
               (Path "M1.00 2.00 L3.00 4.00 L1.00 2.00 Z" true true)]
            None).
Proof.
  intros rect down move b.
  assert (Hlen : 2 <= List.length (pointsRef b)) by (cbn; lia).
  assert (Hout : @getStroke sample_externals
                   (map (fun p => (p.(x), p.(y), p.(pressure))) (pointsRef b))
                   (strokeOptions b) <> []) by discriminate.
  pose proof (proj1 (proj1 (finalizeStroke_adds_one_path
                              (E := sample_externals) b Fabric.empty eq_refl)
                       Hlen Hout)) as Hadd.
  vm_compute in Hadd. vm_compute. exact Hadd.
Defined.

(** ** Finishing a lasso *)

(** C1. When a lasso gesture ends with at least three recorded points,
    [finalizeLasso] selects exactly the canvas objects whose centre point
    is inside the lasso polygon according to [isPointInPolygon]: two or
    more of them become one [ActiveSelection], a single one becomes the
    active object, and with none the canvas, its active selection
    included, is left as it was. *)
Theorem finalizeLasso_selects_enclosed {E : Externals} (b : Board)
    (fabric : Canvas) :
  fabricCanvasRef b = Some fabric ->
  3 <= List.length (pointsRef b) ->
  let inside := enclosed (pointsRef b) fabric in
  (forall o : FabricObject,
      In o inside <->
      In o (getObjects fabric)
      /\ isPointInPolygon (getCenterPoint o) (pointsRef b) = true)
  /\ (inside = [] -> fabricCanvasRef (finalizeLasso b) = Some fabric)
  /\ (forall o : FabricObject,
        inside = [o] ->
        fabricCanvasRef (finalizeLasso b)
        = Some (mkCanvas (getObjects fabric) (Some (Single o))))
  /\ (2 <= List.length inside ->
      fabricCanvasRef (finalizeLasso b)
      = Some (mkCanvas (getObjects fabric) (Some (ActiveSelection inside)))).
Proof.
  intros Hc Hlen inside. split; [|].
  { intros o. unfold inside, enclosed. apply filter_In. }
  unfold finalizeLasso. rewrite Hc. cbn [pointsRef setDrawing].
  destruct (Nat.ltb_spec (List.length (pointsRef b)) 3) as [Hlt|_]; [lia|].
  fold (enclosed (pointsRef b) fabric). fold inside.
  destruct inside as [|o1 [|o2 more]]; cbn; repeat split.
  - intros _. exact Hc.
  - intros o Ho. discriminate Ho.
  - intros Hfalse. lia.
  - intros Hfalse. discriminate Hfalse.
  - intros o Ho. injection Ho as ->. reflexivity.
  - intros Hfalse. lia.
  - intros Hfalse. discriminate Hfalse.
  - intros o Ho. discriminate Ho.
Qed.

Lemma finalizeLasso_selects_enclosed_witness :
  let loop := [mkPt 100 100 (1 # 2) 0; mkPt 300 100 (1 # 2) 16;
               mkPt 300 300 (1 # 2) 32; mkPt 100 300 (1 # 2) 48]%Q in
  let b := setPoints loop (setTool lasso (addCircle (addRect (mount initial)))) in
  let shapes := [mkObject 0 "#3b82f6" (Rect 120 120 160 100 8 8)%Q;
                 mkObject 1 "#3b82f6" (Circle 160 160 60)%Q] in
  fabricCanvasRef (finalizeLasso (E := sample_externals) b)
  = Some (mkCanvas shapes (Some (ActiveSelection shapes))).
Proof.
  intros loop b shapes.
  assert (Hlen : 3 <= List.length (pointsRef b)) by (cbn; lia).
  pose proof (finalizeLasso_selects_enclosed (E := sample_externals) b
                (mkCanvas shapes (Some (Single (mkObject 1 "#3b82f6"
                                                  (Circle 160 160 60)%Q))))
                eq_refl Hlen) as (_ & _ & _ & Hmany).
  assert (Htwo : 2 <= List.length
                        (enclosed (E := sample_externals) (pointsRef b)
                           (mkCanvas shapes
                              (Some (Single (mkObject 1 "#3b82f6"
                                               (Circle 160 160 60)%Q))))))
    by (vm_compute; lia).
  specialize (Hmany Htwo).
  vm_compute in Hmany. vm_compute. exact Hmany.
Defined.

Example lasso_misses_everything :
  let loop := [mkPt 0 0 (1 # 2) 0; mkPt 50 0 (1 # 2) 16;
               mkPt 50 50 (1 # 2) 32]%Q in
  let b := setPoints loop (setTool lasso (addRect (mount initial))) in
  fabricCanvasRef (finalizeLasso (E := sample_externals) b)
  = fabricCanvasRef b.
Proof. vm_compute. reflexivity. Qed.

(** ** Recording samples *)

Lemma or_else_half (p : number) :
  or_else p (1 # 2)%Q = if Qeq_bool p 0%Q then (1 # 2)%Q else p.
Proof.
  unfold or_else, truthy. now destruct (Qeq_bool p 0%Q).
Qed.

Lemma sample_pressure_positive (rect : Ev.DOMRect) (e : Ev.PointerEvent) :
  (0 <= Ev.pressure e)%Q -> (0 < pressure (sample_of rect e))%Q.
Proof.
  intros Hnonneg. cbn [sample_of pressure].
  destruct (Qeq_bool (Ev.pressure e) 0%Q) eqn:Hz; [reflexivity|].
  apply Qeq_bool_neq in Hz.
  destruct (Qle_lt_or_eq _ _ Hnonneg) as [Hlt|Heq]; [exact Hlt|].
  exfalso. apply Hz. now symmetry.
Qed.

Lemma onPointerDown_draw (rect : Ev.DOMRect) (e : Ev.PointerEvent)
    (b : Board) (canvas : Canvas) :
  fabricCanvasRef b = Some canvas -> isPanning b = false -> tool b = draw ->
  onPointerDown rect e b
  = setPoints [sample_of rect e] (setPoints [] (setDrawing true b)).
Proof.
  intros Hc Hpan Htool. unfold onPointerDown.
  rewrite Hc, Hpan, Htool. cbn. unfold setPoints, sample_of. cbn.
  now rewrite or_else_half.
Qed.

Lemma onPointerMove_draw (rect : Ev.DOMRect) (e : Ev.PointerEvent)
    (b : Board) (canvas : Canvas) :
  fabricCanvasRef b = Some canvas -> isPanning b = false -> tool b = draw ->
  drawingRef b = true ->
  onPointerMove rect e b
  = setPoints (pointsRef b ++ [sample_of rect e])%list b.
Proof.
  intros Hc Hpan Htool Hdrawing. unfold onPointerMove.
  rewrite Hc, Hpan, Htool, Hdrawing. cbn. unfold push, sample_of.
  now rewrite or_else_half.
Qed.

(** Every stored pressure is positive, whichever branch stored it. *)
Lemma step_pressures_positive {E : Externals} (a : Action) (b b' : Board) :
  pressure_in_range a b -> step a b = Some b' ->
  Forall (fun p => (0 < pressure p)%Q) (pointsRef b) ->
  Forall (fun p => (0 < pressure p)%Q) (pointsRef b').
Proof.
  intros Hrange Hstep Hpos.
  assert (Hhalf : (0 < 1 # 2)%Q) by reflexivity.
  assert (Hor : forall e : Ev.PointerEvent,
             (0 <= Ev.pressure e)%Q ->
             (0 < or_else (Ev.pressure e) (1 # 2))%Q).
  { intros e He. rewrite or_else_half.
    apply (sample_pressure_positive (Ev.mkDOMRect 0 0)%Q e He). }
  destruct a; open_step Hstep; inversion Hstep; subst;
    cbn [pointsRef setCanvas setDrawing setPoints setPanX setPanY setZoom
         setLayers setActiveLayerId setTool setColor setWidth setSmoothing
         setIsPanning push];
    try assumption; cbn [pressure_in_range] in Hrange;
    repeat first
      [ apply Forall_app; split
      | apply Forall_cons
      | apply Forall_nil
      | assumption
      | exact Hhalf
      | apply Hor; tauto ].
Qed.

(** C7. Every sample recorded while drawing is a timestamped
    (x, y, pressure) record.  With the draw tool and no panning,
    [onPointerDown] starts the sample list with, and [onPointerMove]
    (during a gesture) appends, a record whose x and y are the client
    coordinates of the event minus the origin of the overlay's bounding
    rectangle, whose t is the event's time stamp, and whose pressure is
    the event's pressure when that is non-zero and 0.5 otherwise.  When
    event pressures lie in [0, 1], every recorded sample has a strictly
    positive pressure. *)
Theorem draw_samples_are_timestamped {E : Externals} :
  (forall (rect : Ev.DOMRect) (e : Ev.PointerEvent) (b : Board)
          (canvas : Canvas),
      fabricCanvasRef b = Some canvas ->
      isPanning b = false -> tool b = draw ->
      pointsRef (onPointerDown rect e b) = [sample_of rect e]
      /\ (drawingRef b = true ->
          pointsRef (onPointerMove rect e b)
          = (pointsRef b ++ [sample_of rect e])%list))
  /\ (forall (rect : Ev.DOMRect) (e : Ev.PointerEvent),
        let s := sample_of rect e in
        s.(x) = (Ev.clientX e - Ev.left rect)%Q
        /\ s.(y) = (Ev.clientY e - Ev.top rect)%Q
        /\ s.(t) = Ev.timeStamp e
        /\ (~ (Ev.pressure e == 0)%Q -> s.(pressure) = Ev.pressure e)
        /\ ((Ev.pressure e == 0)%Q -> s.(pressure) = (1 # 2)%Q)
        /\ ((0 <= Ev.pressure e)%Q /\ (Ev.pressure e <= 1)%Q ->
            (0 < s.(pressure))%Q))
  /\ (forall b : Board,
        reachable_when pressure_in_range b ->
        Forall (fun p => (0 < p.(pressure))%Q) (pointsRef b)).
Proof.
  split; [|split].
  - intros rect e b canvas Hc Hpan Htool. split.
    + now rewrite (onPointerDown_draw rect e b canvas).
    + intros Hdrawing. now rewrite (onPointerMove_draw rect e b canvas).
  - intros rect e s. repeat split.
    + intros Hnz. cbn.
      destruct (Qeq_bool (Ev.pressure e) 0%Q) eqn:Hz; [|reflexivity].
      apply Qeq_bool_iff in Hz. contradiction.
    + intros Hz. cbn. apply Qeq_bool_iff in Hz. now rewrite Hz.
    + intros [Hlo _]. now apply sample_pressure_positive.
  - induction 1 as [|a b b' _ IH Hok Hstep].
    + constructor.
    + eapply step_pressures_positive; eassumption.
Qed.

Lemma draw_samples_are_timestamped_witness :
  let rect := Ev.mkDOMRect 10%Q 20%Q in
  let down := Ev.mkPointerEvent 11%Q 22%Q 0%Q 100%Q in
  let move := Ev.mkPointerEvent 13%Q 24%Q (3 # 4)%Q 116%Q in
  let b := onPointerDown rect down (mount initial) in
  pointsRef b = [mkPt (11 - 10) (22 - 20) (1 # 2) 100]%Q
  /\ pointsRef (onPointerMove rect move b)
     = [mkPt (11 - 10) (22 - 20) (1 # 2) 100;
        mkPt (13 - 10) (24 - 20) (3 # 4) 116]%Q.
Proof.
  intros rect down move b.
  pose proof (proj1 (draw_samples_are_timestamped (E := sample_externals)))
    as Hdraw.
  split.
  - exact (proj1 (Hdraw rect down (mount initial) Fabric.empty
                    eq_refl eq_refl eq_refl)).
  - exact (proj2 (Hdraw rect move b Fabric.empty eq_refl eq_refl eq_refl)
             eq_refl).
Defined.

(** While panning, the pan branch is taken whatever the tool is: it
    keeps a single sample, of pressure 0.5. *)
Example pan_branch_first :
  let rect := Ev.mkDOMRect 0%Q 0%Q in
  let down := Ev.mkPointerEvent 5%Q 6%Q (3 # 4)%Q 1%Q in
  pointsRef (onPointerDown rect down (setIsPanning true (mount initial)))
  = [mkPt (5 - 0) (6 - 0) (1 # 2) 1]%Q.
Proof. reflexivity. Qed.

(** ** Toggles *)

Lemma toggle_twice (f : Layer -> Layer) (i : string) (ls : list Layer) :
  (forall l, id (f l) = id l) -> (forall l, f (f l) = l) ->
  map (fun l => if String.eqb (id l) i then f l else l)
    (map (fun l => if String.eqb (id l) i then f l else l) ls) = ls.
Proof.
  intros Hid Hinv. rewrite map_map.
  rewrite <- (map_id ls) at 2. apply map_ext. intros l.
  destruct (String.eqb (id l) i) eqn:Hi.
  - now rewrite Hid, Hi, Hinv.
  - now rewrite Hi.
Qed.

Lemma flip_visible_twice (l : Layer) : flip_visible (flip_visible l) = l.
Proof. destruct l. unfold flip_visible. cbn. now rewrite negb_involutive. Qed.

Lemma flip_locked_twice (l : Layer) : flip_locked (flip_locked l) = l.
Proof. destruct l. unfold flip_locked. cbn. now rewrite negb_involutive. Qed.

(** C10. The visibility and lock toggles act layer by layer and undo
    themselves: the list keeps its length and order; at every position a
    layer whose id is the given one has only its [visible] (resp.
    [locked]) flag negated, its other fields kept, and a layer with
    another id is unchanged; toggling twice gives back the board. *)
Theorem layer_toggles_are_involutions (i : string) (b : Board) :
  (forall l : Layer,
      id (flip_visible l) = id l /\ name (flip_visible l) = name l
      /\ visible (flip_visible l) = negb (visible l)
      /\ locked (flip_visible l) = locked l
      /\ objects (flip_visible l) = objects l)
  /\ (forall l : Layer,
        id (flip_locked l) = id l /\ name (flip_locked l) = name l
        /\ visible (flip_locked l) = visible l
        /\ locked (flip_locked l) = negb (locked l)
        /\ objects (flip_locked l) = objects l)
  /\ List.length (layers (handleLayerToggleVisible i b))
     = List.length (layers b)
  /\ List.length (layers (handleLayerToggleLock i b))
     = List.length (layers b)
  /\ (forall (k : nat) (l : Layer),
        nth_error (layers b) k = Some l ->
        nth_error (layers (handleLayerToggleVisible i b)) k
        = Some (if String.eqb (id l) i then flip_visible l else l)
        /\ nth_error (layers (handleLayerToggleLock i b)) k
           = Some (if String.eqb (id l) i then flip_locked l else l))
  /\ handleLayerToggleVisible i (handleLayerToggleVisible i b) = b
  /\ handleLayerToggleLock i (handleLayerToggleLock i b) = b.
Proof.
  split; [|split]; [intros l; repeat split .. |].
  unfold handleLayerToggleVisible, handleLayerToggleLock.
  cbn [layers setLayers].
  split; [apply length_map|]. split; [apply length_map|].
  split; [|split].
  - intros k l Hk. split.
    + rewrite nth_error_map, Hk. reflexivity.
    + rewrite nth_error_map, Hk. reflexivity.
  - destruct b. unfold setLayers. cbn. f_equal.
    apply (toggle_twice flip_visible);
      [reflexivity | apply flip_visible_twice].
  - destruct b. unfold setLayers. cbn. f_equal.
    apply (toggle_twice flip_locked);
      [reflexivity | apply flip_locked_twice].
Qed.

Example toggle_visible_initial :
  layers (handleLayerToggleVisible "layer-1" initial)
  = [mkLayer "layer-1" "Layer 1" false false []].
Proof. reflexivity. Qed.

(** * Further properties of the board and its panels *)

(** ** Reordering layers *)

Lemma relative_start_inside (k len : nat) :
  k <= len -> relative_start (Z.of_nat k) len = k.
Proof.
  intros Hle. unfold relative_start.
  destruct (Z.ltb_spec (Z.of_nat k) 0) as [Hneg|_]; lia.
Qed.

Lemma splice_remove1_at {A : Type} (pre post : list A) (a : A) :
  splice_remove1 (Z.of_nat (List.length pre)) (pre ++ a :: post)%list
  = ([a], (pre ++ post)%list).
Proof.
  unfold splice_remove1.
  rewrite relative_start_inside
    by (rewrite length_app; cbn [List.length]; lia).
  f_equal.
  - rewrite skipn_app, Nat.sub_diag, skipn_all. reflexivity.
  - f_equal.
    + rewrite firstn_app, Nat.sub_diag, firstn_all. cbn.
      now rewrite app_nil_r.
    + replace (S (List.length pre)) with (List.length (pre ++ [a])%list)
        by (rewrite length_app; cbn [List.length]; lia).
      replace (pre ++ a :: post)%list with ((pre ++ [a]) ++ post)%list
        by (now rewrite <- app_assoc).
      rewrite skipn_app, Nat.sub_diag, skipn_all. reflexivity.
Qed.

Lemma splice_insert_at {A : Type} (pre post : list A) (a : A) :
  splice_insert (Z.of_nat (List.length pre)) a (pre ++ post)%list
  = (pre ++ a :: post)%list.
Proof.
  unfold splice_insert.
  rewrite relative_start_inside by (rewrite length_app; lia).
  rewrite firstn_app, Nat.sub_diag, firstn_all.
  rewrite skipn_app, Nat.sub_diag, skipn_all. cbn.
  now rewrite app_nil_r.
Qed.

(** Taking the layer at position [|pre|] out and putting it back at
    position [|pre'|] of what is left. *)
Lemma handleLayerReorder_moves (pre post pre' post' : list Layer) (a : Layer)
    (b : Board) :
  layers b = (pre ++ a :: post)%list ->
  (pre ++ post)%list = (pre' ++ post')%list ->
  handleLayerReorder (Z.of_nat (List.length pre))
    (Z.of_nat (List.length pre')) b
  = Some (setLayers (pre' ++ a :: post')%list b).
Proof.
  intros Hl Hrest. unfold handleLayerReorder.
  rewrite Hl, splice_remove1_at, Hrest, splice_insert_at. reflexivity.
Qed.

Lemma setLayers_layers (b : Board) : setLayers (layers b) b = b.
Proof. now destruct b. Qed.

Lemma setLayers_twice (ls ls' : list Layer) (b : Board) :
  setLayers ls (setLayers ls' b) = setLayers ls b.
Proof. reflexivity. Qed.

Lemma arrows_swap (pre post : list Layer) (a c : Layer) (b : Board) :
  layers b = (pre ++ a :: c :: post)%list ->
  handleMoveDown (Z.of_nat (List.length pre)) b
  = Some (setLayers (pre ++ c :: a :: post)%list b)
  /\ handleMoveUp (Z.of_nat (S (List.length pre))) b
     = Some (setLayers (pre ++ c :: a :: post)%list b)
  /\ handleMoveUp 0%Z b = Some b
  /\ handleMoveDown (Z.of_nat (List.length (layers b)) - 1)%Z b = Some b.
Proof.
  intros Hl. split; [|split; [|split]].
  - unfold handleMoveDown.
    destruct (Z.ltb_spec (Z.of_nat (List.length pre))
                (Z.of_nat (List.length (layers b)) - 1)) as [_|Hge].
    2:{ rewrite Hl, length_app in Hge. cbn [List.length] in Hge. lia. }
    replace (Z.of_nat (List.length pre) + 1)%Z
      with (Z.of_nat (List.length (pre ++ [c])%list))
      by (rewrite length_app; cbn [List.length]; lia).
    rewrite (handleLayerReorder_moves pre (c :: post) (pre ++ [c]) post a b Hl)
      by (now rewrite <- app_assoc).
    now rewrite <- app_assoc.
  - unfold handleMoveUp.
    destruct (Z.ltb_spec 0 (Z.of_nat (S (List.length pre)))) as [_|Hle];
      [|lia].
    replace (Z.of_nat (S (List.length pre)) - 1)%Z
      with (Z.of_nat (List.length pre)) by lia.
    replace (S (List.length pre)) with (List.length (pre ++ [a])%list)
      by (rewrite length_app; cbn [List.length]; lia).
    apply (handleLayerReorder_moves (pre ++ [a]) post pre (a :: post) c b).
    + now rewrite Hl, <- app_assoc.
    + now rewrite <- app_assoc.
  - reflexivity.
  - unfold handleMoveDown. now rewrite Z.ltb_irrefl.
Qed.

(** X1. The arrows of the layer panel swap neighbours: on a list
    [pre ++ a :: c :: post], "down" on the row of [a] and "up" on the row
    of [c] both give [pre ++ c :: a :: post], the rest of the board
    unchanged; "up" on the first row and "down" on the last row do
    nothing. *)
Theorem panel_arrows_swap_neighbours (pre post : list Layer) (a c : Layer)
    (b : Board) :
  layers b = (pre ++ a :: c :: post)%list ->
  handleMoveDown (Z.of_nat (List.length pre)) b
  = Some (setLayers (pre ++ c :: a :: post)%list b)
  /\ handleMoveUp (Z.of_nat (S (List.length pre))) b
     = Some (setLayers (pre ++ c :: a :: post)%list b)
  /\ handleMoveUp 0%Z b = Some b
  /\ handleMoveDown (Z.of_nat (List.length (layers b)) - 1)%Z b = Some b.
Proof. apply arrows_swap. Qed.

Lemma panel_arrows_swap_neighbours_witness :
  let b := handleLayerAdd 8 (handleLayerAdd 7 initial) in
  option_map (fun b' => map id (layers b')) (handleMoveDown 0%Z b)
  = Some ["layer-7"; "layer-1"; "layer-8"].
Proof.
  intros b.
  pose proof (proj1 (panel_arrows_swap_neighbours []
                       [mkLayer "layer-8" "Layer 3" true false []]
                       (mkLayer "layer-1" "Layer 1" true false [])
                       (mkLayer "layer-7" "Layer 2" true false [])
                       b eq_refl)) as Hdown.
  cbn [List.length Z.of_nat] in Hdown. rewrite Hdown. reflexivity.
Defined.

(** X2. Moving a row up and then moving it down again (it is now one
    row higher) gives back the board; so does down followed by up. *)
Theorem panel_up_then_down (pre post : list Layer) (a c : Layer) (b : Board) :
  layers b = (pre ++ a :: c :: post)%list ->
  (exists b1, handleMoveUp (Z.of_nat (S (List.length pre))) b = Some b1
              /\ handleMoveDown (Z.of_nat (List.length pre)) b1 = Some b)
  /\ (exists b1, handleMoveDown (Z.of_nat (List.length pre)) b = Some b1
                 /\ handleMoveUp (Z.of_nat (S (List.length pre))) b1 = Some b).
Proof.
  intros Hl.
  destruct (arrows_swap pre post a c b Hl) as (Hdown & Hup & _).
  set (b1 := setLayers (pre ++ c :: a :: post)%list b).
  assert (Hl1 : layers b1 = (pre ++ c :: a :: post)%list) by reflexivity.
  destruct (arrows_swap pre post c a b1 Hl1) as (Hdown1 & Hup1 & _).
  assert (Hback : setLayers (pre ++ a :: c :: post)%list b1 = b).
  { unfold b1. rewrite setLayers_twice, <- Hl. apply setLayers_layers. }
  rewrite Hback in Hdown1, Hup1.
  split; exists b1; split; assumption.
Qed.

Lemma panel_up_then_down_witness :
  let b := handleLayerAdd 8 (handleLayerAdd 7 initial) in
  exists b1, handleMoveUp 1%Z b = Some b1
             /\ handleMoveDown 0%Z b1 = Some b.
Proof.
  intros b.
  exact (proj1 (panel_up_then_down []
                  [mkLayer "layer-8" "Layer 3" true false []]
                  (mkLayer "layer-1" "Layer 1" true false [])
                  (mkLayer "layer-7" "Layer 2" true false [])
                  b eq_refl)).
Defined.

(** X3. [handleLayerReorder] goes through exactly when [fromIndex] is
    below the length of a non-empty list (a negative index counts from
    the end); it then permutes the layers, losing and duplicating none,
    and leaves the active layer id and the canvas alone. *)
Theorem handleLayerReorder_permutes (fromIndex toIndex : Z) (b : Board) :
  (designates_layer fromIndex b <->
   exists b', handleLayerReorder fromIndex toIndex b = Some b')
  /\ (forall b' : Board,
        handleLayerReorder fromIndex toIndex b = Some b' ->
        Permutation (layers b') (layers b)
        /\ List.length (layers b') = List.length (layers b)
        /\ activeLayerId b' = activeLayerId b
        /\ fabricCanvasRef b' = fabricCanvasRef b).
Proof.
  split; [apply handleLayerReorder_defined|].
  intros b' Hre. unfold handleLayerReorder in Hre.
  destruct (splice_remove1 fromIndex (layers b)) as [removed rest] eqn:Hsp.
  destruct removed as [|moved tl] eqn:Hrm; [discriminate|].
  inversion Hre; subst. cbn [layers setLayers activeLayerId fabricCanvasRef].
  pose proof (splice_reorder_permutation fromIndex toIndex (layers b)
                _ rest moved tl Hsp eq_refl) as Hperm.
  split; [exact Hperm|]. split; [|split; reflexivity].
  now apply Permutation_length.
Qed.

Lemma handleLayerReorder_permutes_witness :
  let b := handleLayerAdd 8 (handleLayerAdd 7 initial) in
  option_map (fun b' => map id (layers b')) (handleLayerReorder (-1) 0 b)
  = Some ["layer-8"; "layer-1"; "layer-7"]
  /\ exists b', handleLayerReorder (-1) 0 b = Some b'.
Proof.
  intros b. split; [reflexivity|].
  apply (proj1 (handleLayerReorder_permutes (-1) 0 b)).
  split; [cbn; lia | discriminate].
Defined.

(** ** The active layer *)

Lemma find_hd_filter {A : Type} (f : A -> bool) (l : list A) :
  find f l = hd_error (filter f l).
Proof.
  induction l as [|a l IH]; cbn; [reflexivity|].
  destruct (f a); [reflexivity | exact IH].
Qed.

Lemma activeLayerId_handleLayerDelete (i : string) (b : Board) :
  1 < List.length (layers b) ->
  (activeLayerId b <> i ->
   activeLayerId (handleLayerDelete i b) = activeLayerId b)
  /\ (activeLayerId b = i ->
      forall (l0 : Layer) (rest : list Layer),
        layers (handleLayerDelete i b) = l0 :: rest -> id l0 <> "" ->
        activeLayerId (handleLayerDelete i b) = id l0).
Proof.
  intros Hlen. split.
  - intros Hneq. unfold handleLayerDelete.
    destruct (Nat.leb_spec (List.length (layers b)) 1) as [Hle|_]; [lia|].
    apply String.eqb_neq in Hneq. cbn. now rewrite Hneq.
  - intros Heq l0 rest Hrest Hid.
    rewrite layers_handleLayerDelete in Hrest by assumption.
    unfold handleLayerDelete.
    destruct (Nat.leb_spec (List.length (layers b)) 1) as [Hle|_]; [lia|].
    cbn [layers setLayers activeLayerId].
    apply String.eqb_eq in Heq. rewrite Heq.
    cbn [activeLayerId setActiveLayerId].
    rewrite find_hd_filter, Hrest. cbn [hd_error].
    apply String.eqb_neq in Hid. now rewrite Hid.
Qed.

(** X4. Deleting a layer other than the active one keeps the active id;
    deleting the active layer of a list of at least two makes the first
    layer that remains the active one (when its id is not the empty
    string). *)
Theorem delete_active_selects_first_remaining (i : string) (b : Board) :
  1 < List.length (layers b) ->
  (activeLayerId b <> i ->
   activeLayerId (handleLayerDelete i b) = activeLayerId b)
  /\ (activeLayerId b = i ->
      forall (l0 : Layer) (rest : list Layer),
        layers (handleLayerDelete i b) = l0 :: rest -> id l0 <> "" ->
        activeLayerId (handleLayerDelete i b) = id l0).
Proof. apply activeLayerId_handleLayerDelete. Qed.

Lemma delete_active_selects_first_remaining_witness :
  let b := handleLayerAdd 8 (handleLayerAdd 7 initial) in
  activeLayerId b = "layer-8"
  /\ activeLayerId (handleLayerDelete "layer-8" b) = "layer-1".
Proof.
  intros b. split; [reflexivity|].
  assert (Hlen : 1 < List.length (layers b)) by (cbn; lia).
  apply (proj2 (delete_active_selects_first_remaining "layer-8" b Hlen)
           eq_refl
           (mkLayer "layer-1" "Layer 1" true false [])
           [mkLayer "layer-7" "Layer 2" true false []]);
    [reflexivity | discriminate].
Defined.

Lemma layer_ids_toggle (f : Layer -> Layer) (i : string) (b : Board) :
  (forall l, id (f l) = id l) ->
  map id (map (fun l => if String.eqb (id l) i then f l else l) (layers b))
  = layer_ids b.
Proof. intros Hf. now apply toggle_keeps_ids. Qed.

(** One step keeps "ids are non-empty strings" and "the active layer is
    in the list", given that ids are distinct. *)
Lemma step_active_layer {E : Externals} (a : Action) (b b' : Board) :
  panel_action a b -> step a b = Some b' ->
  layers b <> [] /\ NoDup (layer_ids b) ->
  Forall (fun s => s <> "") (layer_ids b) /\ active_layer_exists b ->
  Forall (fun s => s <> "") (layer_ids b') /\ active_layer_exists b'.
Proof.
  unfold active_layer_exists.
  intros [Hfresh Hsel] Hstep [Hne Hnd] [Hids Hact].
  destruct (is_layer_action a) eqn:Hkind.
  - destruct a; try discriminate Hkind; cbn [step] in Hstep.
    + (* select *)
      inversion Hstep; subst. split; [exact Hids | exact Hsel].
    + (* add *)
      inversion Hstep; subst. unfold layer_ids in *. cbn.
      rewrite map_app. cbn [map id]. split.
      * apply Forall_app. split; [exact Hids|].
        constructor; [discriminate | constructor].
      * apply in_or_app. right. now left.
    + (* delete *)
      inversion Hstep; subst.
      destruct (Nat.leb_spec (List.length (layers b)) 1) as [Hle|Hgt].
      { unfold handleLayerDelete. apply Nat.leb_le in Hle. rewrite Hle.
        now split. }
      assert (Hsub : forall l,
                 In l (layers (handleLayerDelete i b)) ->
                 In l (layers b) /\ id l <> i).
      { intros l Hl. rewrite layers_handleLayerDelete in Hl by assumption.
        apply filter_In in Hl. destruct Hl as [Hl Hf]. split; [exact Hl|].
        now apply negb_true_iff, String.eqb_neq in Hf. }
      assert (Hids' : Forall (fun s => s <> "")
                        (layer_ids (handleLayerDelete i b))).
      { unfold layer_ids in *. rewrite Forall_forall in *.
        intros s Hs. apply in_map_iff in Hs. destruct Hs as (l & <- & Hl).
        apply Hids, in_map. now apply Hsub. }
      split; [exact Hids'|].
      destruct (activeLayerId_handleLayerDelete i b Hgt) as [Hkeep Hmove].
      destruct (string_dec (activeLayerId b) i) as [Heq|Hneq].
      * destruct (handleLayerDelete_removes_one i b Hgt Hnd) as [Hleft _].
        destruct (layers (handleLayerDelete i b)) as [|l0 rest] eqn:Hrest;
          [congruence|].
        assert (Hl0 : id l0 <> "").
        { unfold layer_ids in Hids'. rewrite Hrest in Hids'.
          now inversion Hids'. }
        rewrite (Hmove Heq l0 rest eq_refl Hl0).
        unfold layer_ids. rewrite Hrest. now left.
      * rewrite (Hkeep Hneq). unfold layer_ids in *.
        apply in_map_iff in Hact. destruct Hact as (l & Hid & Hl).
        apply in_map_iff. exists l. split; [exact Hid|].
        rewrite layers_handleLayerDelete by assumption.
        apply filter_In. split; [exact Hl|].
        apply negb_true_iff, String.eqb_neq. congruence.
    + (* toggle visible *)
      inversion Hstep; subst. unfold handleLayerToggleVisible, layer_ids.
      cbn [layers setLayers activeLayerId].
      rewrite (layer_ids_toggle flip_visible) by reflexivity. now split.
    + (* toggle lock *)
      inversion Hstep; subst. unfold handleLayerToggleLock, layer_ids.
      cbn [layers setLayers activeLayerId].
      rewrite (layer_ids_toggle flip_locked) by reflexivity. now split.
    + (* reorder *)
      unfold handleLayerReorder in Hstep.
      destruct (splice_remove1 fromIndex (layers b)) as [removed rest] eqn:Hsp.
      destruct removed as [|moved tl] eqn:Hrm; [discriminate|].
      inversion Hstep; subst. unfold layer_ids in *.
      cbn [layers setLayers activeLayerId].
      pose proof (splice_reorder_permutation fromIndex toIndex (layers b)
                    _ rest moved tl Hsp eq_refl) as Hperm.
      apply (Permutation_map id), Permutation_sym in Hperm.
      split.
      * eapply Permutation_Forall; eassumption.
      * eapply Permutation_in; eassumption.
  - destruct (step_layers_frame a b b' Hkind Hstep) as [Hl Ha].
    unfold layer_ids. rewrite Hl, Ha. now split.
Qed.

(** X5. The active layer always exists: starting from the first render,
    when the layer panel only selects ids of layers in the list and every
    added layer gets a fresh id, the active layer id is the id of a layer
    of the list after every action, whatever is deleted or reordered. *)
Theorem active_layer_always_exists {E : Externals} (b : Board) :
  reachable_when panel_action b -> active_layer_exists b.
Proof.
  intros Hreach.
  assert (Hall : (layers b <> [] /\ NoDup (layer_ids b))
                 /\ Forall (fun s => s <> "") (layer_ids b)
                 /\ active_layer_exists b).
  { induction Hreach as [|a b b' _ IH Hok Hstep].
    - split; [split; [discriminate|]|split].
      + repeat constructor. intros [].
      + repeat constructor. discriminate.
      + now left.
    - destruct IH as [Hdist Hrest]. split.
      + eapply step_layers_distinct; [apply Hok | eassumption | assumption].
      + eapply step_active_layer; eassumption. }
  apply Hall.
Qed.

Lemma active_layer_always_exists_witness :
  let b := handleLayerDelete "layer-7" (handleLayerAdd 7 initial) in
  reachable_when (E := sample_externals) panel_action b
  /\ active_layer_exists b.
Proof.
  assert (Hr : reachable_when (E := sample_externals) panel_action
                 (handleLayerDelete "layer-7" (handleLayerAdd 7 initial))).
  { apply (reach_step _ (LayerDelete "layer-7") (handleLayerAdd 7 initial));
      [|split; exact I|reflexivity].
    apply (reach_step _ (LayerAdd 7) initial); [| |reflexivity].
    - apply reach_initial.
    - split; [|exact I]. cbn. intros [H|[]]. discriminate H. }
  split; [exact Hr | exact (active_layer_always_exists _ Hr)].
Defined.

(** ** Undo after an addition *)

(** The canvas after a stroke that produced an outline. *)
Lemma finalizeStroke_added {E : Externals} (b : Board) (fabric : Canvas) :
  fabricCanvasRef b = Some fabric ->
  2 <= List.length (pointsRef b) ->
  getStroke (map (fun p => (p.(x), p.(y), p.(pressure))) (pointsRef b))
    (strokeOptions b) <> [] ->
  fabricCanvasRef (finalizeStroke b)
  = Some (mkCanvas
            (getObjects fabric
             ++ [mkObject (allocated b) (color b)
                   (Path (getSvgPathFromStroke
                            (getStroke
                               (map (fun p => (p.(x), p.(y), p.(pressure)))
                                    (pointsRef b))
                               (strokeOptions b))) true true)])%list
            (getActiveObject fabric)).
Proof.
  intros Hc Hlen Hout. unfold finalizeStroke. rewrite Hc.
  cbn [pointsRef setDrawing].
  destruct (Nat.ltb_spec (List.length (pointsRef b)) 2) as [Hlt|_]; [lia|].
  change (strokeOptions (setDrawing false b)) with (strokeOptions b).
  destruct (Nat.eqb_spec
              (List.length
                 (getStroke
                    (map (fun p => (p.(x), p.(y), p.(pressure))) (pointsRef b))
                    (strokeOptions b))) 0) as [Hz|_].
  { destruct (getStroke _ _); [congruence | discriminate]. }
  reflexivity.
Qed.

(** [undo] on a board whose canvas ends with a newly constructed object. *)
Lemma undo_removes_new (b1 : Board) (objs : list FabricObject)
    (obj : FabricObject) (act : option Active) :
  fabricCanvasRef b1 = Some (mkCanvas (objs ++ [obj])%list act) ->
  NoDup (map oid (objs ++ [obj])%list) ->
  fabricCanvasRef (undo b1) = Some (mkCanvas objs None).
Proof.
  intros Hc Hnd.
  destruct (undo_on_distinct b1 _ Hc Hnd) as [_ Hlast].
  now rewrite (Hlast objs obj eq_refl).
Qed.

(** X6. [undo] cancels the last addition: right after [addRect],
    [addCircle] or a stroke that produced an outline, [undo] gives back
    the object list the canvas had before, with no active object. *)
Theorem undo_cancels_addition {E : Externals} (b : Board) (canvas : Canvas) :
  reachable b -> fabricCanvasRef b = Some canvas ->
  fabricCanvasRef (undo (addRect b))
  = Some (mkCanvas (getObjects canvas) None)
  /\ fabricCanvasRef (undo (addCircle b))
     = Some (mkCanvas (getObjects canvas) None)
  /\ (2 <= List.length (pointsRef b) ->
      getStroke (map (fun p => (p.(x), p.(y), p.(pressure))) (pointsRef b))
        (strokeOptions b) <> [] ->
      fabricCanvasRef (undo (finalizeStroke b))
      = Some (mkCanvas (getObjects canvas) None)).
Proof.
  intros Hreach Hc.
  apply reachable_distinct_objects in Hreach. rewrite Hc in Hreach.
  assert (Hnew : forall f s,
             NoDup (map oid (getObjects canvas
                             ++ [mkObject (allocated b) f s])%list)).
  { intros f s.
    apply (distinct_objects_add canvas (allocated b) f s None Hreach). }
  split; [|split].
  - eapply undo_removes_new; [|apply Hnew].
    unfold addRect. rewrite Hc. reflexivity.
  - eapply undo_removes_new; [|apply Hnew].
    unfold addCircle. rewrite Hc. reflexivity.
  - intros Hlen Hout.
    eapply undo_removes_new; [|apply Hnew].
    now apply finalizeStroke_added.
Qed.

Lemma undo_cancels_addition_witness :
  let b := addRect (mount initial) in
  reachable (E := sample_externals) b
  /\ option_map getObjects (fabricCanvasRef (undo (addCircle b)))
     = option_map getObjects (fabricCanvasRef b).
Proof.
  assert (Hr : reachable (E := sample_externals) (addRect (mount initial))).
  { apply (reach_step _ AddRect (mount initial)); [|exact I|reflexivity].
    apply (reach_step _ Mount initial); [|exact I|reflexivity].
    apply reach_initial. }
  split; [exact Hr|].
  rewrite (proj1 (proj2 (undo_cancels_addition (E := sample_externals)
                           (addRect (mount initial))
                           (mkCanvas
                              [mkObject 0 "#3b82f6"
                                 (Rect 120 120 160 100 8 8)%Q]
                              (Some (Single
                                       (mkObject 0 "#3b82f6"
                                          (Rect 120 120 160 100 8 8)%Q))))
                           Hr eq_refl))).
  reflexivity.
Defined.

(** ** Whole gestures *)

Lemma setPoints_pointsRef (b : Board) : setPoints (pointsRef b) b = b.
Proof. now destruct b. Qed.

(** Moves of a drawing gesture only extend the sample list. *)
Lemma moves_draw (evs : list (Ev.DOMRect * Ev.PointerEvent)) :
  forall (b : Board) (canvas : Canvas),
    fabricCanvasRef b = Some canvas -> isPanning b = false ->
    tool b = draw -> drawingRef b = true ->
    moves evs b
    = setPoints
        (pointsRef b ++ map (fun re => sample_of (fst re) (snd re)) evs)%list
        b.
Proof.
  induction evs as [|[rect e] evs IH]; intros b canvas Hc Hpan Htool Hdr.
  - cbn. now rewrite app_nil_r, setPoints_pointsRef.
  - unfold moves in *. cbn [fold_left fst snd map].
    rewrite (onPointerMove_draw rect e b canvas Hc Hpan Htool Hdr).
    rewrite (IH _ canvas) by (cbn; assumption).
    cbn [pointsRef setPoints]. unfold setPoints. cbn.
    now rewrite <- app_assoc.
Qed.

(** X7. A drawing gesture records one sample per event: with the draw
    tool and no panning, pointer down followed by any number of moves
    leaves in the sample list exactly the samples of these events, in
    order, and changes nothing else but the drawing flag. *)
Theorem draw_gesture_samples (first : Ev.DOMRect * Ev.PointerEvent)
    (evs : list (Ev.DOMRect * Ev.PointerEvent)) (b : Board)
    (canvas : Canvas) :
  fabricCanvasRef b = Some canvas -> isPanning b = false -> tool b = draw ->
  moves evs (onPointerDown (fst first) (snd first) b)
  = setPoints (map (fun re => sample_of (fst re) (snd re)) (first :: evs))
      (setDrawing true b).
Proof.
  intros Hc Hpan Htool.
  rewrite (onPointerDown_draw _ _ b canvas Hc Hpan Htool).
  rewrite (moves_draw evs _ canvas) by (cbn; assumption || reflexivity).
  reflexivity.
Qed.

Lemma draw_gesture_samples_witness :
  let rect := Ev.mkDOMRect 10%Q 20%Q in
  let down := Ev.mkPointerEvent 11%Q 22%Q 0%Q 100%Q in
  let move := Ev.mkPointerEvent 13%Q 24%Q (3 # 4)%Q 116%Q in
  pointsRef (moves [(rect, move); (rect, move)]
               (onPointerDown rect down (mount initial)))
  = [sample_of rect down; sample_of rect move; sample_of rect move].
Proof.
  intros rect down move.
  pose proof (draw_gesture_samples (rect, down)
                [(rect, move); (rect, move)]
                (mount initial) Fabric.empty eq_refl eq_refl eq_refl) as Hg.
  cbn [fst snd] in Hg. rewrite Hg. reflexivity.
Defined.



(** The sample the pan branch keeps for an event. *)
Lemma onPointerMove_pan (re : Ev.DOMRect * Ev.PointerEvent) (b : Board)
    (canvas : Canvas) (prev : Pt) :
  fabricCanvasRef b = Some canvas -> isPanning b = true ->
  drawingRef b = true -> pointsRef b = [prev] ->
  let pos := getPos (fst re) (snd re) in
  onPointerMove (fst re) (snd re) b
  = setPoints [lasso_point (fst re) (snd re)]
      (setPanY (panY b + (snd pos - prev.(y)))%Q
         (setPanX (panX b + (fst pos - prev.(x)))%Q b)).
Proof.
  intros Hc Hpan Hdr Hpts. unfold onPointerMove.
  rewrite Hc, Hdr, Hpts, Hpan. reflexivity.
Qed.

Lemma last_default {A : Type} (l : list A) (a d d' : A) :
  last (a :: l) d = last (a :: l) d'.
Proof.
  revert a. induction l as [|c l IH]; intros a; [reflexivity|].
  change (last (c :: l) d = last (c :: l) d'). apply IH.
Qed.

Lemma moves_pan (evs : list (Ev.DOMRect * Ev.PointerEvent)) :
  forall (b : Board) (canvas : Canvas) (prev : Ev.DOMRect * Ev.PointerEvent),
    fabricCanvasRef b = Some canvas -> isPanning b = true ->
    drawingRef b = true ->
    pointsRef b = [lasso_point (fst prev) (snd prev)] ->
    let positions := map (fun re => getPos (fst re) (snd re)) (prev :: evs) in
    panX (moves evs b)
    = fold_left Qplus (displacements (map fst positions)) (panX b)
    /\ panY (moves evs b)
       = fold_left Qplus (displacements (map snd positions)) (panY b)
    /\ pointsRef (moves evs b)
       = [lasso_point (fst (last_event prev evs)) (snd (last_event prev evs))]
    /\ zoom (moves evs b) = zoom b
    /\ fabricCanvasRef (moves evs b) = fabricCanvasRef b.
Proof.
  induction evs as [|re evs IH]; intros b canvas prev Hc Hpan Hdr Hpts.
  - cbn. now rewrite Hpts.
  - unfold moves in *. cbn [fold_left].
    rewrite (onPointerMove_pan re b canvas _ Hc Hpan Hdr Hpts).
    cbn zeta.
    match goal with
    | |- context [fold_left _ evs ?b1] =>
        destruct (IH b1 canvas re Hc Hpan Hdr eq_refl)
          as (HX & HY & HP & HZ & HC)
    end.
    assert (Hlast : last_event prev (re :: evs) = last_event re evs).
    { unfold last_event. destruct evs as [|re' evs']; [reflexivity|].
      change (last (re :: re' :: evs') prev) with (last (re' :: evs') prev).
      now rewrite (last_default evs' re' prev re). }
    rewrite Hlast. split; [|split; [|split; [|split]]].
    + rewrite HX. reflexivity.
    + rewrite HY. reflexivity.
    + exact HP.
    + rewrite HZ. reflexivity.
    + rewrite HC. reflexivity.
Qed.

(** X9. Dragging while the space bar is held accumulates the steps of
    the pointer: after pointer down and any number of moves, panX (and
    likewise panY) is its starting value with the differences between
    consecutive event positions added to it one after the other, in the
    order of the events; the one sample kept is the position of the last
    event, and zoom and the canvas are untouched. *)
Theorem pan_gesture_accumulates (first : Ev.DOMRect * Ev.PointerEvent)
    (evs : list (Ev.DOMRect * Ev.PointerEvent)) (b : Board)
    (canvas : Canvas) :
  fabricCanvasRef b = Some canvas -> isPanning b = true ->
  let positions := map (fun re => getPos (fst re) (snd re)) (first :: evs) in
  let after := moves evs (onPointerDown (fst first) (snd first) b) in
  panX after = fold_left Qplus (displacements (map fst positions)) (panX b)
  /\ panY after = fold_left Qplus (displacements (map snd positions)) (panY b)
  /\ pointsRef after
     = [lasso_point (fst (last_event first evs)) (snd (last_event first evs))]
  /\ zoom after = zoom b
  /\ fabricCanvasRef after = fabricCanvasRef b.
Proof.
  intros Hc Hpan positions after. unfold after, positions.
  assert (Hdown : onPointerDown (fst first) (snd first) b
                  = setPoints [lasso_point (fst first) (snd first)]
                      (setDrawing true b)).
  { unfold onPointerDown. rewrite Hc, Hpan. reflexivity. }
  rewrite Hdown.
  match goal with
  | |- context [moves evs ?b0] =>
      destruct (moves_pan evs b0 canvas first Hc Hpan eq_refl eq_refl)
        as (HX & HY & HP & HZ & HC)
  end.
  split; [exact HX|]. split; [exact HY|]. split; [exact HP|].
  split; [exact HZ | exact HC].
Qed.

Lemma pan_gesture_accumulates_witness :
  let rect := Ev.mkDOMRect 0%Q 0%Q in
  let ev (cx cy : Q) := (rect, Ev.mkPointerEvent cx cy 0%Q 0%Q) in
  let b := setIsPanning true (mount initial) in
  panX (moves [ev 50 7; ev 3 90]%Q (onPointerDown rect (snd (ev 10 10)%Q) b))
  = (0 + ((50 - 0) - (10 - 0)) + ((3 - 0) - (50 - 0)))%Q.
Proof.
  intros rect ev b.
  exact (proj1 (pan_gesture_accumulates (ev 10 10)%Q [ev 50 7; ev 3 90]%Q
                  b Fabric.empty eq_refl eq_refl)).
Defined.

(** ** More on zoom *)

(** X10. From a zoom in range, zoom in raises the zoom unless it is 5,
    where it does nothing, and zoom out lowers it unless it is 0.1, where
    it does nothing.  The wheel lowers the zoom (unless it is 0.1) when
    [deltaY] is positive and raises it (unless it is 5) otherwise, a
    [deltaY] of zero included. *)
Theorem zoom_direction (deltaY : number) (b : Board) (canvas : Canvas) :
  zoom_in_range (zoom b) -> fabricCanvasRef b = Some canvas ->
  (zoom b <= zoom (handleZoomIn b))%Q
  /\ (zoom (handleZoomOut b) <= zoom b)%Q
  /\ ((zoom b == 5)%Q -> (zoom (handleZoomIn b) == 5)%Q)
  /\ ((zoom b == 1 # 10)%Q -> (zoom (handleZoomOut b) == 1 # 10)%Q)
  /\ ((zoom b < 5)%Q -> (zoom b < zoom (handleZoomIn b))%Q)
  /\ ((1 # 10 < zoom b)%Q -> (zoom (handleZoomOut b) < zoom b)%Q)
  /\ ((0 < deltaY)%Q ->
      (zoom (handleWheel deltaY b) <= zoom b)%Q
      /\ ((1 # 10 < zoom b)%Q -> (zoom (handleWheel deltaY b) < zoom b)%Q))
  /\ ((deltaY <= 0)%Q ->
      (zoom b <= zoom (handleWheel deltaY b))%Q
      /\ ((zoom b < 5)%Q -> (zoom b < zoom (handleWheel deltaY b))%Q)).
Proof.
  intros [Hlo Hhi] Hc.
  unfold handleZoomIn, handleZoomOut, handleWheel. rewrite Hc.
  cbn [zoom setZoom]. unfold Math_max, Math_min, gt.
  split; [|split; [|split; [|split; [|split; [|split; [|split]]]]]].
  - destruct (Q.min_spec 5 (zoom b + (2 # 10))) as [[H1 Hm]|[H1 Hm]]; lra.
  - destruct (Q.max_spec (1 # 10) (zoom b - (2 # 10))) as [[H1 Hm]|[H1 Hm]];
      lra.
  - intros Htop.
    destruct (Q.min_spec 5 (zoom b + (2 # 10))) as [[H1 Hm]|[H1 Hm]]; lra.
  - intros Hbot.
    destruct (Q.max_spec (1 # 10) (zoom b - (2 # 10))) as [[H1 Hm]|[H1 Hm]];
      lra.
  - intros Hbelow.
    destruct (Q.min_spec 5 (zoom b + (2 # 10))) as [[H1 Hm]|[H1 Hm]]; lra.
  - intros Habove.
    destruct (Q.max_spec (1 # 10) (zoom b - (2 # 10))) as [[H1 Hm]|[H1 Hm]];
      lra.
  - intros Hpos.
    assert (Hgt : Qle_bool deltaY 0 = false).
    { apply not_true_iff_false. rewrite Qle_bool_iff. lra. }
    rewrite Hgt. cbn [negb].
    destruct (Q.min_spec 5 (zoom b + - (1 # 10))) as [[H1 Hmin]|[H1 Hmin]];
      destruct (Q.max_spec (1 # 10) (Qmin 5 (zoom b + - (1 # 10))))
        as [[H2 Hmax]|[H2 Hmax]]; (split; [lra | intros Habove; lra]).
  - intros Hneg.
    assert (Hle : Qle_bool deltaY 0 = true) by now apply Qle_bool_iff.
    rewrite Hle. cbn [negb].
    destruct (Q.min_spec 5 (zoom b + (1 # 10))) as [[H1 Hmin]|[H1 Hmin]];
      destruct (Q.max_spec (1 # 10) (Qmin 5 (zoom b + (1 # 10))))
        as [[H2 Hmax]|[H2 Hmax]]; (split; [lra | intros Hbelow; lra]).
Qed.

Lemma zoom_direction_witness :
  let b := mount initial in
  (zoom b < zoom (handleWheel 0%Q b))%Q
  /\ (zoom (handleWheel 1%Q b) < zoom b)%Q.
Proof.
  intros b.
  assert (Hz : zoom_in_range (zoom b)) by (split; cbn; lra).
  assert (Hzero : (0 <= 0)%Q) by lra.
  assert (Hone : (0 < 1)%Q) by lra.
  assert (Hbelow : (zoom b < 5)%Q) by (cbn; lra).
  assert (Habove : (1 # 10 < zoom b)%Q) by (cbn; lra).
  pose proof (zoom_direction 0%Q b Fabric.empty Hz eq_refl)
    as (_ & _ & _ & _ & _ & _ & _ & Hin).
  pose proof (zoom_direction 1%Q b Fabric.empty Hz eq_refl)
    as (_ & _ & _ & _ & _ & _ & Hout & _).
  split.
  - exact (proj2 (Hin Hzero) Hbelow).
  - exact (proj2 (Hout Hone) Habove).
Defined.

(** X11. The percentage shown by the zoom controls,
    [Math.round(zoom * 100)], is between 10 and 500 in every board reached
    from the first render. *)
Theorem zoom_label_bounds {E : Externals} (b : Board) :
  reachable b -> (10 <= zoomLabel (zoom b) <= 500)%Z.
Proof.
  intros Hreach.
  destruct (reachable_zoom_in_range b Hreach) as [Hlo Hhi].
  unfold zoomLabel, Math_round. split.
  - change 10%Z with (Qfloor (10 + (1 # 2))%Q).
    apply Qfloor_resp_le. lra.
  - change 500%Z with (Qfloor (500 + (1 # 2))%Q).
    apply Qfloor_resp_le. lra.
Qed.

Lemma zoom_label_bounds_witness :
  let b := handleZoomOut (handleZoomIn (handleZoomIn (mount initial))) in
  reachable (E := sample_externals) b
  /\ (10 <= zoomLabel (zoom b) <= 500)%Z.
Proof.
  assert (Hr : reachable (E := sample_externals)
                 (handleZoomOut
                    (handleZoomIn (handleZoomIn (mount initial))))).
  { apply (reach_step _ ZoomOut (handleZoomIn (handleZoomIn (mount initial))));
      [|exact I|reflexivity].
    apply (reach_step _ ZoomIn (handleZoomIn (mount initial)));
      [|exact I|reflexivity].
    apply (reach_step _ ZoomIn (mount initial)); [|exact I|reflexivity].
    apply (reach_step _ Mount initial); [|exact I|reflexivity].
    apply reach_initial. }
  split; [exact Hr | exact (zoom_label_bounds _ Hr)].
Defined.

(** ** Holding and releasing the space bar *)

(** X13. Holding and releasing the space bar (outside a gesture) gives
    back the board, and the canvas gets back the [selection] and
    [skipTargetFind] the tool effect had set; the cursor is restored for
    every tool but the lasso, whose "crosshair" becomes "default". *)
Theorem space_bar_round_trip (b : Board) (f : Flags.Interaction) :
  isPanning b = false -> drawingRef b = false ->
  let f0 := Flags.toolEffect (tool b) f in
  let b1 := handleKeyDown "Space" b in
  let f1 := Flags.keyDown "Space" b f0 in
  let f2 := Flags.keyUp "Space" b1 f1 in
  isPanning b1 = true
  /\ Flags.skipTargetFind f1 = true
  /\ handleKeyUp "Space" b1 = b
  /\ Flags.selection f2 = Flags.selection f0
  /\ Flags.skipTargetFind f2 = Flags.skipTargetFind f0
  /\ (tool b <> lasso -> f2 = f0)
  /\ (tool b = lasso ->
      Flags.defaultCursor f0 = "crosshair"
      /\ Flags.defaultCursor f2 = "default").
Proof.
  intros Hpan Hdr. unfold handleKeyDown, handleKeyUp, Flags.keyDown,
    Flags.keyUp, Flags.toolEffect.
  rewrite Hpan, Hdr. cbn.
  split; [reflexivity|]. split; [reflexivity|]. split.
  { destruct b. cbn in *. now subst. }
  destruct (tool b); cbn; repeat split; congruence.
Qed.

Lemma space_bar_round_trip_witness :
  let b := setTool lasso initial in
  let f0 := Flags.toolEffect lasso (Flags.mkInteraction true false "default") in
  Flags.defaultCursor f0 = "crosshair"
  /\ Flags.defaultCursor
       (Flags.keyUp "Space" (handleKeyDown "Space" b)
          (Flags.keyDown "Space" b f0)) = "default".
Proof.
  intros b f0.
  exact (proj2 (proj2 (proj2 (proj2 (proj2 (proj2
           (space_bar_round_trip b
              (Flags.mkInteraction true false "default")
              eq_refl eq_refl)))))) eq_refl).
Defined.

(** ** Sizing *)



(** ** The lasso and the heights of its points *)

Lemma gt_true (a c : number) : gt a c = true <-> (c < a)%Q.
Proof.
  unfold gt. rewrite negb_true_iff, <- not_true_iff_false, Qle_bool_iff.
  split; [apply Qnot_le_lt | apply Qlt_not_le].
Qed.

Lemma gt_false (a c : number) : gt a c = false <-> (a <= c)%Q.
Proof.
  unfold gt. rewrite negb_false_iff, Qle_bool_iff. reflexivity.
Qed.

(** An edge whose two ends are on the same side of the height of the
    point fails the first half of the test, whatever the second half
    computes. *)
Lemma crosses_same_side (point : Point) (u v : Pt) :
  ((Fabric.y point < u.(y))%Q -> (Fabric.y point < v.(y))%Q ->
   crosses point u v = false)
  /\ ((u.(y) <= Fabric.y point)%Q -> (v.(y) <= Fabric.y point)%Q ->
      crosses point u v = false).
Proof.
  split.
  - intros Hu Hv. unfold crosses.
    apply gt_true in Hu, Hv. now rewrite Hu, Hv.
  - intros Hu Hv. unfold crosses.
    apply gt_false in Hu, Hv. now rewrite Hu, Hv.
Qed.

Lemma at_index_In (polygon : list Pt) (i : nat) :
  i < List.length polygon -> In (at_index polygon i) polygon.
Proof. intros Hi. now apply nth_In. Qed.

(** The loop does nothing when no pair of vertices passes the test. *)
Lemma pip_loop_idle (point : Point) (polygon : list Pt) :
  (forall u v, In u polygon -> In v polygon -> crosses point u v = false) ->
  forall (steps i j : nat) (inside : bool),
    i + steps <= List.length polygon -> j < List.length polygon ->
    pip_loop point polygon steps i j inside = inside.
Proof.
  intros Hno. induction steps as [|steps IH]; intros i j inside Hi Hj;
    [reflexivity|].
  cbn [pip_loop]. rewrite Hno by (apply at_index_In; lia).
  apply IH; lia.
Qed.

Lemma none_or_all {A : Type} (P Q : A -> Prop) (l : list A) :
  (forall a, {P a} + {Q a}) ->
  (exists a, In a l /\ P a) \/ (forall a, In a l -> Q a).
Proof.
  intros Hdec. induction l as [|a l IH].
  - right. intros a [].
  - destruct (Hdec a) as [Hp|Hq].
    + left. exists a. split; [now left | exact Hp].
    + destruct IH as [(a' & Hin & Hp)|Hall].
      * left. exists a'. split; [now right | exact Hp].
      * right. intros a' [<-|Hin]; [exact Hq | now apply Hall].
Qed.

Lemma in_vertical_extent_or_not (point : Point) (polygon : list Pt) :
  in_vertical_extent point polygon
  \/ (forall v, In v polygon -> (Fabric.y point < v.(y))%Q)
  \/ (forall v, In v polygon -> (v.(y) <= Fabric.y point)%Q).
Proof.
  unfold in_vertical_extent.
  assert (Hy : forall a : Pt,
             {(a.(y) <= Fabric.y point)%Q} + {(Fabric.y point < a.(y))%Q})
    by (intros a; destruct (Qlt_le_dec (Fabric.y point) (y a)); auto).
  assert (Hy' : forall a : Pt,
             {(Fabric.y point < a.(y))%Q} + {(a.(y) <= Fabric.y point)%Q})
    by (intros a; destruct (Hy a); auto).
  destruct (none_or_all _ _ polygon Hy) as [H1|H1]; [|right; left; exact H1].
  destruct (none_or_all _ _ polygon Hy') as [H2|H2];
    [|right; right; exact H2].
  left. split; assumption.
Qed.

(** The test rejects every point whose y is smaller than the y of every
    vertex, and every point whose y is at least the y of every vertex. *)
Lemma outside_vertical_extent (point : Point) (polygon : list Pt) :
  (forall v, In v polygon -> (Fabric.y point < v.(y))%Q)
  \/ (forall v, In v polygon -> (v.(y) <= Fabric.y point)%Q) ->
  isPointInPolygon point polygon = false.
Proof.
  intros Hside. unfold isPointInPolygon.
  destruct polygon as [|p0 rest] eqn:Hpoly; [reflexivity|].
  rewrite <- Hpoly in *.
  assert (Hlen : List.length polygon = S (List.length rest))
    by (now rewrite Hpoly).
  apply pip_loop_idle; [|lia|lia].
  intros u v Hu Hv. destruct Hside as [Hall|Hall].
  - apply (proj1 (crosses_same_side point u v)); now apply Hall.
  - apply (proj2 (crosses_same_side point u v)); now apply Hall.
Qed.

(** X15. A point that [isPointInPolygon] accepts has its height within
    the heights of the polygon's vertices: some vertex has
    [y <= point.y] and some vertex has [y > point.y].  So the lasso never
    selects an object whose centre is above, or below, all the lasso
    points. *)
Theorem isPointInPolygon_in_vertical_extent (point : Point)
    (polygon : list Pt) :
  isPointInPolygon point polygon = true -> in_vertical_extent point polygon.
Proof.
  intros Hin.
  destruct (in_vertical_extent_or_not point polygon) as [Hext|Hout];
    [exact Hext|].
  rewrite (outside_vertical_extent point polygon Hout) in Hin.
  discriminate Hin.
Qed.

Lemma isPointInPolygon_in_vertical_extent_witness :
  let square := [mkPt 0 0 (1 # 2) 0; mkPt 4 0 (1 # 2) 1;
                 mkPt 4 4 (1 # 2) 2; mkPt 0 4 (1 # 2) 3]%Q in
  isPointInPolygon (mkPoint 1 1)%Q square = true
  /\ in_vertical_extent (mkPoint 1 1)%Q square.
Proof.
  intros square.
  assert (Hin : isPointInPolygon (mkPoint 1 1)%Q square = true)
    by reflexivity.
  split; [exact Hin|].
  exact (isPointInPolygon_in_vertical_extent _ _ Hin).
Defined.

Example lasso_level_with_top :
  isPointInPolygon (mkPoint 2 4)%Q
    [mkPt 0 0 (1 # 2) 0; mkPt 4 0 (1 # 2) 1; mkPt 2 4 (1 # 2) 2]%Q = false.
Proof. reflexivity. Qed.

(** ** A whole lasso gesture *)




(** ** Releasing the space bar during a drag *)

(** X17. Releasing the space bar in the middle of a pan drag does not end
    the gesture: with the draw tool, the next pointer move is recorded as
    an ink sample after the position the pan started from, and pointer
    up then adds a stroke through both (when [getStroke] returns an
    outline). *)
Theorem space_released_mid_drag {E : Externals}
    (r1 r2 : Ev.DOMRect) (e1 e2 : Ev.PointerEvent) (b : Board)
    (canvas : Canvas) :
  fabricCanvasRef b = Some canvas -> isPanning b = true -> tool b = draw ->
  let b3 :=
    onPointerMove r2 e2 (handleKeyUp "Space" (onPointerDown r1 e1 b)) in
  let outline :=
    getStroke (map (fun p => (p.(x), p.(y), p.(pressure))) (pointsRef b3))
      (strokeOptions b) in
  pointsRef b3 = [lasso_point r1 e1; sample_of r2 e2]
  /\ (outline <> [] ->
      fabricCanvasRef (onPointerUp b3)
      = Some (mkCanvas
                (getObjects canvas
                 ++ [mkObject (allocated b) (color b)
                       (Path (getSvgPathFromStroke outline) true true)])%list
                (getActiveObject canvas))).
Proof.
  intros Hc Hpan Htool b3 outline.
  assert (Hdown : onPointerDown r1 e1 b
                  = setPoints [lasso_point r1 e1] (setDrawing true b)).
  { unfold onPointerDown. rewrite Hc, Hpan. reflexivity. }
  assert (Hkey : handleKeyUp "Space" (onPointerDown r1 e1 b)
                 = setIsPanning false
                     (setPoints [lasso_point r1 e1] (setDrawing true b))).
  { rewrite Hdown. unfold handleKeyUp.
    change (isPanning (setPoints _ _)) with (isPanning b).
    now rewrite Hpan. }
  set (b2 := setIsPanning false
               (setPoints [lasso_point r1 e1] (setDrawing true b))) in *.
  assert (H3 : b3 = setPoints [lasso_point r1 e1; sample_of r2 e2] b2).
  { unfold b3. rewrite Hkey.
    now rewrite (onPointerMove_draw r2 e2 b2 canvas Hc eq_refl Htool eq_refl). }
  split; [now rewrite H3|].
  intros Hout.
  assert (Hc3 : fabricCanvasRef b3 = Some canvas) by (now rewrite H3).
  assert (Hup : onPointerUp b3 = finalizeStroke b3).
  { unfold onPointerUp. rewrite Hc3, H3.
    change (isPanning (setPoints _ b2)) with false.
    change (tool (setPoints _ b2)) with (tool b). now rewrite Htool. }
  rewrite Hup.
  assert (Hlen : 2 <= List.length (pointsRef b3)) by (rewrite H3; cbn; lia).
  assert (Hso : strokeOptions b3 = strokeOptions b) by (now rewrite H3).
  assert (Hout3 : getStroke
                    (map (fun p => (p.(x), p.(y), p.(pressure))) (pointsRef b3))
                    (strokeOptions b3) <> []).
  { rewrite Hso. exact Hout. }
  rewrite (finalizeStroke_added b3 canvas Hc3 Hlen Hout3), Hso.
  replace (allocated b3) with (allocated b) by (now rewrite H3).
  replace (color b3) with (color b) by (now rewrite H3).
  reflexivity.
Qed.

Lemma space_released_mid_drag_witness :
  let rect := Ev.mkDOMRect 0%Q 0%Q in
  let e1 := Ev.mkPointerEvent 10%Q 10%Q 0%Q 0%Q in
  let e2 := Ev.mkPointerEvent 30%Q 40%Q (3 # 4)%Q 16%Q in
  let b := setIsPanning true (mount initial) in
  pointsRef (onPointerMove rect e2
               (handleKeyUp "Space" (onPointerDown rect e1 b)))
  = [lasso_point rect e1; sample_of rect e2].
Proof.
  intros rect e1 e2 b.
  exact (proj1 (space_released_mid_drag (E := sample_externals)
                  rect rect e1 e2 b Fabric.empty eq_refl eq_refl eq_refl)).
Defined.
